(** * Word-frequency indexer ([file_indexer.py]): model and properties

    The Python module tokenizes text files into words, counts them
    case-insensitively in a [Histogram], optionally builds the per-file
    histograms in a worker pool, sums them and reports the top words.

    Python values are modelled as follows.
    - [str] is Rocq's [string] (a sequence of 8-bit characters; comparison is
      lexicographic on character codes, [lower()] acts on ASCII letters).
    - [int] is [Z].
    - the [defaultdict] held by a [Histogram] is a [gmap string Z]; a read
      of a missing key yields the default [_zero () = 0].
    - raising an exception is a [Raise] result. *)

From Stdlib Require Import ZArith Ascii String List Sorting.Sorted Sorting.Permutation.
From stdpp Require Import gmap strings list fin_maps sorting.

Local Open Scope Z_scope.

(** ** Exceptions *)

Inductive exn : Type :=
| ValueError
| IOError
| IndexError
| TypeError
| ZeroDivisionError.

Inductive result (A : Type) : Type :=
| Ok (a : A)
| Raise (e : exn).

Arguments Ok {A} a.
Arguments Raise {A} e.

#[global] Instance result_ret : MRet result := fun A a => Ok a.

#[global] Instance result_bind : MBind result := fun A B k r =>
  match r with
  | Ok a => k a
  | Raise e => Raise e
  end.

(** ** Tokenizer *)

Module Tokenizer.

(** The character class of [WORD_RE = re.compile('[a-zA-Z0-9]+')]. *)
Definition in_range (lo hi c : ascii) : bool :=
  (nat_of_ascii lo <=? nat_of_ascii c)%nat && (nat_of_ascii c <=? nat_of_ascii hi)%nat.

Definition word_char (c : ascii) : bool :=
  in_range "a"%char "z"%char c || in_range "A"%char "Z"%char c
  || in_range "0"%char "9"%char c.

(** What a pending match yields when it ends: nothing if it is empty (the
    [+] needs one character at least), the matched text otherwise. *)
Definition emit (cur : string) : list string :=
  match cur with
  | EmptyString => []
  | _ => [cur]
  end.

(** [WORD_RE.finditer(text)], [match.group(0)] of every match, left to
    right.  [cur] is the text matched so far by the greedy [+]; a character
    outside the class ends the match and is skipped. *)
Fixpoint WORD_RE_finditer (cur text : string) : list string :=
  match text with
  | EmptyString => emit cur
  | String c rest =>
      if word_char c then WORD_RE_finditer (cur +:+ String c EmptyString) rest
      else emit cur ++ WORD_RE_finditer EmptyString rest
  end.

Definition _tokenize_text (text : string) : list string :=
  WORD_RE_finditer EmptyString text.

(** [tokenize(fh)]: the file handle is iterated line by line. *)
Definition tokenize (fh : list string) : list string :=
  flat_map _tokenize_text fh.

End Tokenizer.

(** ** Histogram *)

Record Histogram : Type := mkHistogram {
  _words : gmap string Z;
  _total : Z
}.

(** [Histogram.__init__]. *)
Definition __init__ : Histogram :=
  {| _words := ∅; _total := 0 |}.

(** [str.lower()] on one character. *)
Definition lower_char (c : ascii) : ascii :=
  if Tokenizer.in_range "A"%char "Z"%char c then ascii_of_nat (nat_of_ascii c + 32) else c.

Fixpoint lower (s : string) : string :=
  match s with
  | EmptyString => EmptyString
  | String c rest => String (lower_char c) (lower rest)
  end.

(** [d[word]] on the [defaultdict]: a missing key reads as [_zero ()]. *)
Definition _zero : Z := 0.

Definition getitem_default (d : gmap string Z) (word : string) : Z :=
  default _zero (d !! word).

(** [d[word] += count]. *)
Definition iadd_item (d : gmap string Z) (word : string) (count : Z) : gmap string Z :=
  <[word := getitem_default d word + count]> d.

(** [Histogram.add]. *)
Definition add (self : Histogram) (word : string) : Histogram :=
  let word := lower word in
  let total := _total self + 1 in
  {| _words := iadd_item (_words self) word 1; _total := total |}.

(** [total_words] and [distinct_words]. *)
Definition total_words (self : Histogram) : Z := _total self.

Definition distinct_words (self : Histogram) : Z := Z.of_nat (size (_words self)).

(** Operands of [+] and [+=]: a [Histogram] or a value of another class. *)
Inductive value : Type :=
| VHistogram (h : Histogram)
| VStr (s : string)
| VInt (n : Z)
| VNone.

(** What [__iadd__] returns: [NotImplemented] or [self]. *)
Inductive iadd_return : Type :=
| INotImplemented
| ISelf.

(** What [__add__] returns: [NotImplemented] or a new [Histogram]. *)
Inductive add_return : Type :=
| NotImplemented
| New (new_hist : Histogram).

(** The loop [for word, count in six.iteritems(other._words):
    self._words[word] += count].  The items are visited in the order of
    [map_to_list]; the result is the same for any other order
    ([Merge.iadd_words_order_irrelevant]). *)
Definition iadd_words (self_words other_words : gmap string Z) : gmap string Z :=
  foldl (fun d '(word, count) => iadd_item d word count) self_words
        (map_to_list other_words).

(** [Histogram.__iadd__]: the state of [self] afterwards and the value
    returned. *)
Definition __iadd__ (self : Histogram) (other : value) : Histogram * iadd_return :=
  match other with
  | VHistogram other =>
      ({| _words := iadd_words (_words self) (_words other);
          _total := _total self + _total other |}, ISelf)
  | _ => (self, INotImplemented)
  end.

(** [Histogram.__add__]; [self] and [other] are left as they are.  Both
    [new_hist += ...] statements have a [Histogram] on the right, so
    [__iadd__] returns [new_hist] itself and the name is bound to it again. *)
Definition __add__ (self : Histogram) (other : value) : add_return :=
  match other with
  | VHistogram _ =>
      let new_hist := __init__ in
      let new_hist := fst (__iadd__ new_hist (VHistogram self)) in
      let new_hist := fst (__iadd__ new_hist other) in
      New new_hist
  | _ => NotImplemented
  end.

(** The expression [self + other] with a [Histogram] on the left.  When
    [__add__] returns [NotImplemented] Python asks the right operand for
    [__radd__]; [str], [int] and [None] have none that takes a [Histogram],
    and the interpreter raises [TypeError]. *)
Definition binary_add (self : Histogram) (other : value) : result Histogram :=
  match __add__ self other with
  | New new_hist => Ok new_hist
  | NotImplemented => Raise TypeError
  end.

(** The statement [self += other]: the object [self] afterwards and the
    object the name is bound to.  After [NotImplemented] from [__iadd__]
    Python falls back on [self + other]. *)
Definition inplace_add (self : Histogram) (other : value) : Histogram * result Histogram :=
  match __iadd__ self other with
  | (self', ISelf) => (self', Ok self')
  | (self', INotImplemented) => (self', binary_add self' other)
  end.

(** ** Ranking *)

Definition item : Type := string * Z.

(** Python's order on the sort key [(x[1], x[0])]: tuples compare
    component by component. *)
Definition key_ltb (x y : item) : bool :=
  (snd x <? snd y) || ((snd x =? snd y) && String.ltb (fst x) (fst y)).

(** [sorted(..., key=..., reverse=True)]: largest key first; entries of
    equal key keep their order. *)
Fixpoint insert_reverse (x : item) (l : list item) : list item :=
  match l with
  | [] => [x]
  | y :: l' => if key_ltb x y then y :: insert_reverse x l' else x :: l
  end.

Definition sorted_reverse (l : list item) : list item :=
  foldr insert_reverse [] l.

Definition len {A : Type} (l : list A) : Z := Z.of_nat (length l).

(** [l[i]], negative indices counting from the end. *)
Definition getitem {A : Type} (l : list A) (i : Z) : result A :=
  let j := if i <? 0 then i + len l else i in
  if (j <? 0) || (len l <=? j) then Raise IndexError
  else match l !! Z.to_nat j with
       | Some x => Ok x
       | None => Raise IndexError
       end.

(** [l[:stop]]. *)
Definition slice_to {A : Type} (l : list A) (stop : Z) : list A :=
  let j := if stop <? 0 then Z.max 0 (stop + len l) else Z.min stop (len l) in
  take (Z.to_nat j) l.

(** The [while count < len(word_list)] loop of [top_words]; it runs at
    most [len(word_list) - count] times, which is what [fuel] is set to. *)
Fixpoint extend_ties (fuel : nat) (word_list : list item) (last_count count : Z)
  : result Z :=
  match fuel with
  | O => Ok count
  | S fuel' =>
      if count <? len word_list then
        x ← getitem word_list count;
        if snd x =? last_count
        then extend_ties fuel' word_list last_count (count + 1)
        else Ok count
      else Ok count
  end.

(** [Histogram.top_words].  The items are handed to [sorted] in the order
    of [map_to_list]; the sorted list is the same for any other order
    ([Ranking.sorted_reverse_order_irrelevant]). *)
Definition top_words (self : Histogram) (count : Z) : result (list item) :=
  let word_list := sorted_reverse (map_to_list (_words self)) in
  if len word_list <? count then Ok word_list
  else
    last ← getitem word_list (count - 1);
    let last_count := snd last in
    count ← extend_ties (Z.to_nat (len word_list - count)) word_list last_count count;
    Ok (slice_to word_list count).

(** ** Input sources, the worker pool and [main] *)

(** A line of the report, by the format that prints it and the values
    formatted.  [LPercent] stands for ['    %s: %.2f%%'] applied to the word
    and to [(word_cnt * 100.0) / total]; the quotient is a float and is left
    unevaluated. *)
Inductive line : Type :=
| LTotal (total : Z)
| LDistinct (distinct : Z)
| LTop (k : Z)
| LCount (word : string) (word_cnt : Z)
| LPercent (word : string) (word_cnt total : Z).

(** What the program does to the outside: reading standard input, opening
    a file, asking for the number of CPUs, creating the pool, printing a line
    to [out].  An event of a worker process carries the worker's number. *)
Inductive event : Type :=
| EvStdin
| EvOpen (fname : string)
| EvCpuCount
| EvPool (processes : Z)
| EvPrint (l : line)
| EvWorker (worker : nat) (e : event).

(** The outside as the program finds it: the lines of every file that can
    be opened ([None]: [open] raises), the lines of standard input, and what
    [multiprocessing.cpu_count()] returns ([None]: [NotImplementedError]). *)
Record world : Type := mkWorld {
  file_lines : string -> option (list string);
  stdin_lines : list string;
  cpu_count : option positive
}.

(** A computation with effects: the events it caused, then its value or the
    exception that ended it. *)
Definition io (A : Type) : Type := list event * result A.

#[global] Instance io_ret : MRet io := fun A a => ([], Ok a).

#[global] Instance io_bind : MBind io := fun A B k m =>
  match m with
  | (t, Ok a) => let (t', r) := k a in (t ++ t', r)
  | (t, Raise e) => (t, Raise e)
  end.

Definition emit_event (e : event) : io unit := ([e], Ok tt).

Definition raise {A : Type} (e : exn) : io A := ([], Raise e).

Definition lift {A : Type} (r : result A) : io A := ([], r).

Definition in_worker {A : Type} (worker : nat) (m : io A) : io A :=
  (map (EvWorker worker) (fst m), snd m).

(** [for word in tokenize(fh): hist.add(word)]. *)
Definition add_all (hist : Histogram) (fh : list string) : Histogram :=
  foldl add hist (Tokenizer.tokenize fh).

(** [histogram_from_file]; [fname = None] is standard input. *)
Definition histogram_from_file (w : world) (fname : option string) : io Histogram :=
  let hist := __init__ in
  match fname with
  | None =>
      _ ← emit_event EvStdin;
      mret (add_all hist (stdin_lines w))
  | Some fname =>
      _ ← emit_event (EvOpen fname);
      match file_lines w fname with
      | Some fh => mret (add_all hist fh)
      | None => raise IOError
      end
  end.

(** The serial branch, [[histogram_from_file(f) for f in files]]. *)
Fixpoint serial_map (w : world) (files : list (option string)) : io (list value) :=
  match files with
  | [] => mret []
  | f :: files' =>
      h ← histogram_from_file w f;
      results ← serial_map w files';
      mret (VHistogram h :: results)
  end.

(** The outside as a worker process of the pool finds it.  When a
    [multiprocessing] process starts it closes its [sys.stdin] and opens
    [os.devnull] in its place, so that standard input reads as empty there;
    the files are those of the calling process. *)
Definition worker_world (w : world) : world :=
  {| file_lines := file_lines w;
     stdin_lines := [];
     cpu_count := cpu_count w |}.

(** [pool.map(histogram_from_file, files)].  The library keeps one slot per
    task, [None] at first, and stores every result at the index of its
    task, whichever worker ran it and whenever it finished; an exception in
    a worker is raised again in the caller.  The order in which the tasks
    finish and the worker each one ran on are not decided by the program:
    [oracle] gives, for every step, the pending task that finishes next (by
    its position among the pending ones) and its worker.  The function runs
    in the worker process, that is, in [worker_world]. *)
Fixpoint pool_tasks (w : world) (processes : nat) (oracle : list (nat * nat))
    (fuel : nat) (pending : list (nat * option string)) (slots : list value)
  : io (list value) :=
  match fuel, pending with
  | S fuel', task0 :: _ =>
      let '(k, worker) := hd (0%nat, 0%nat) oracle in
      let i := (k mod length pending)%nat in
      let '(index, fname) := nth i pending task0 in
      h ← in_worker (worker mod processes)%nat
            (histogram_from_file (worker_world w) fname);
      pool_tasks w processes (tl oracle) fuel' (delete i pending)
                 (<[index := VHistogram h]> slots)
  | _, _ => mret slots
  end.

Definition pool_map (w : world) (processes : nat) (oracle : list (nat * nat))
    (files : list (option string)) : io (list value) :=
  pool_tasks w processes oracle (length files) (imap pair files)
             (replicate (length files) VNone).

(** [sum(results, start)]: [start + results[0] + results[1] + ...]. *)
Fixpoint sum_values (results : list value) (start : Histogram) : result Histogram :=
  match results with
  | [] => Ok start
  | v :: results' => acc ← binary_add start v; sum_values results' acc
  end.

Definition DEFAULT_WORKERS : Z := 4.

(** [main] up to [final_result] (the argument checks, the two ways of
    collecting the per-file histograms and their sum).  [workers] is [VNone]
    when the option is not given. *)
Definition main_final_result (w : world) (oracle : list (nat * nat))
    (files : list string) (workers : value) : io Histogram :=
  if (1 <? len (filter (fun f => f = "-") files))
  then raise ValueError
  else
    let files := map (fun f => if String.eqb f "-" then None else Some f) files in
    results ←
      match workers with
      | VNone => serial_map w files
      | VInt n =>
          if n <? 0 then raise ValueError
          else
            n ← (if n =? 0
                 then _ ← emit_event EvCpuCount;
                      mret (match cpu_count w with
                            | Some cpus => Z.pos cpus
                            | None => DEFAULT_WORKERS
                            end)
                 else mret n);
            _ ← emit_event (EvPool n);
            pool_map w (Z.to_nat n) oracle files
      | _ => raise ValueError
      end;
    lift (sum_values results __init__).

(** The [for word, word_cnt in top_words] loop of [main]. *)
Fixpoint print_words (percentages : bool) (total : Z) (top_words : list item)
  : io unit :=
  match top_words with
  | [] => mret tt
  | (word, word_cnt) :: top_words' =>
      _ ← (if percentages
           then if total =? 0 then raise ZeroDivisionError
                else emit_event (EvPrint (LPercent word word_cnt total))
           else emit_event (EvPrint (LCount word word_cnt)));
      print_words percentages total top_words'
  end.

(** The rest of [main]: the report on [final_result]. *)
Definition report (final_result : Histogram) (count : Z) (percentages : bool)
  : io unit :=
  _ ← emit_event (EvPrint (LTotal (total_words final_result)));
  _ ← emit_event (EvPrint (LDistinct (distinct_words final_result)));
  top_words ← lift (top_words final_result count);
  _ ← emit_event (EvPrint (LTop (len top_words)));
  print_words percentages (total_words final_result) top_words.

Definition main (w : world) (oracle : list (nat * nat)) (files : list string)
    (count : Z) (percentages : bool) (workers : value) : io unit :=
  final_result ← main_final_result w oracle files workers;
  report final_result count percentages.

(** The lines printed, in order. *)
Fixpoint printed (trace : list event) : list line :=
  match trace with
  | [] => []
  | EvPrint l :: trace' => l :: printed trace'
  | _ :: trace' => printed trace'
  end.

(** * Notions used in the statements *)

(** ** Tokens *)

Fixpoint all_word_chars (s : string) : Prop :=
  match s with
  | EmptyString => True
  | String c rest => Tokenizer.word_char c = true /\ all_word_chars rest
  end.

(** Nothing precedes the token, or the character just before it is a
    delimiter. *)
Definition closed_left (pre : string) : Prop :=
  pre = EmptyString \/
  exists pre' c, pre = pre' +:+ String c EmptyString /\ Tokenizer.word_char c = false.

(** Nothing follows the token, or the character just after it is a
    delimiter. *)
Definition closed_right (post : string) : Prop :=
  post = EmptyString \/
  exists c post', post = String c post' /\ Tokenizer.word_char c = false.

(** ** Ranking order *)

(** The order of the list [top_words] returns, as the code produces it:
    larger counts first and, for equal counts, larger words first. *)
Definition code_order (x y : item) : Prop :=
  snd y < snd x \/ (snd x = snd y /\ String.leb (fst y) (fst x) = true).

(** The order as the specification words it: larger counts first and, for
    equal counts, smaller words first. *)
Definition spec_order (x y : item) : Prop :=
  snd y < snd x \/ (snd x = snd y /\ String.leb (fst x) (fst y) = true).

(** ** The histogram invariant *)

(** [sum(counts.values())]. *)
Definition counts_sum (m : gmap string Z) : Z :=
  map_fold (fun _ count acc => count + acc) 0 m.

(** A key is lowercase when it holds no capital ASCII letter. *)
Fixpoint lowercase (s : string) : Prop :=
  match s with
  | EmptyString => True
  | String c rest =>
      Tokenizer.in_range "A"%char "Z"%char c = false /\ lowercase rest
  end.

(** The state invariant of a [Histogram]. *)
Definition invariant (h : Histogram) : Prop :=
  _total h = counts_sum (_words h) /\
  forall word, is_Some (_words h !! word) -> lowercase word.

(** The histogram [self + other] builds. *)
Definition plus (a b : Histogram) : Histogram :=
  {| _words := iadd_words (_words a) (_words b); _total := _total a + _total b |}.

(** ** Sources *)

(** The histogram of a source, when the source can be read. *)
Definition source_hist (w : world) (fname : option string) : option Histogram :=
  match fname with
  | None => Some (add_all __init__ (stdin_lines w))
  | Some fname => add_all __init__ <$> file_lines w fname
  end.

(** What a loop over the sources delivers in the world [w]: the histograms
    of the sources in the order of [files], or [IOError] when one cannot be
    opened. *)
Fixpoint collect (w : world) (files : list (option string)) : result (list value) :=
  match files with
  | [] => Ok []
  | f :: files' =>
      match source_hist w f with
      | Some h =>
          match collect w files' with
          | Ok results => Ok (VHistogram h :: results)
          | Raise e => Raise e
          end
      | None => Raise IOError
      end
  end.

Definition hist_value (w : world) (fname : option string) : value :=
  VHistogram (default __init__ (source_hist w fname)).

(** ** Sample inputs *)

Definition tie_example : Histogram :=
  {| _words := list_to_map [("a", 1); ("b", 1)]; _total := 2 |}.

Definition w_ex : world :=
  {| file_lines := fun f =>
       if String.eqb f "a.txt" then Some ["Hello world"; "hello!"]
       else if String.eqb f "b.txt" then Some ["b B c"]
       else None;
     stdin_lines := ["x y z"];
     cpu_count := Some 2%positive |}.

(** ** Further notions: text and tokens *)

(** The word characters of a text, in order. *)
Fixpoint word_chars_of (text : string) : string :=
  match text with
  | EmptyString => EmptyString
  | String c rest =>
      if Tokenizer.word_char c then String c (word_chars_of rest)
      else word_chars_of rest
  end.

(** The strings of a list, one after the other. *)
Definition concat_strings (l : list string) : string :=
  foldr String.append EmptyString l.

(** A line that ends in a delimiter, as a line read from a file ends in its
    newline. *)
Definition ends_in_delimiter (line : string) : Prop :=
  exists pre d,
    line = pre +:+ String d EmptyString /\ Tokenizer.word_char d = false.

Definition newline : ascii := ascii_of_nat 10.

(** ** Further notions: counting *)

(** How many of the words [ws] fold to the key [k]. *)
Definition count_word (k : string) (ws : list string) : Z :=
  len (filter (fun w => lower w = k) ws).

(** Every stored count is at least 1. *)
Definition positive_counts (h : Histogram) : Prop :=
  forall word count, _words h !! word = Some count -> 1 <= count.

(** ** Further notions: ranking *)

(** All stored words have the same count. *)
Definition all_tied (h : Histogram) : Prop :=
  forall w1 c1 w2 c2,
    _words h !! w1 = Some c1 -> _words h !! w2 = Some c2 -> c1 = c2.

Definition words_tie : Histogram :=
  {| _words := list_to_map [("word1", 50); ("word2", 40); ("word3", 40);
                            ("word4", 40); ("word5", 10)];
     _total := 180 |}.

Definition words_spam : Histogram :=
  {| _words := list_to_map [("spam", 3); ("eggs", 3)]; _total := 6 |}.

(** ** Further notions: sources and the report *)

(** The sources [main] hands to [histogram_from_file]: ["-"] is standard
    input. *)
Definition sources (files : list string) : list (option string) :=
  map (fun f => if String.eqb f "-" then None else Some f) files.

(** The one event of reading a source. *)
Definition source_event (fname : option string) : event :=
  match fname with
  | None => EvStdin
  | Some fname => EvOpen fname
  end.

(** The lines of a source, when it can be read. *)
Definition source_lines (w : world) (fname : option string) : option (list string) :=
  match fname with
  | None => Some (stdin_lines w)
  | Some fname => file_lines w fname
  end.

(** Small letters and digits. *)
Definition key_char (c : ascii) : bool :=
  Tokenizer.in_range "a"%char "z"%char c || Tokenizer.in_range "0"%char "9"%char c.

Fixpoint all_key_chars (s : string) : Prop :=
  match s with
  | EmptyString => True
  | String c rest => key_char c = true /\ all_key_chars rest
  end.

(** The line [main] prints for one entry of the top words. *)
Definition word_line (percentages : bool) (total : Z) (x : item) : line :=
  if percentages then LPercent (fst x) (snd x) total else LCount (fst x) (snd x).

(** [workers] as [main] accepts it: absent, or an integer that is not
    negative. *)
Definition valid_workers (workers : value) : Prop :=
  workers = VNone \/ exists n, workers = VInt n /\ 0 <= n.

(** All the tokens of the sources, in the order of the sources. *)
Definition all_tokens (w : world) (srcs : list (option string)) : list string :=
  flat_map (fun f => Tokenizer.tokenize (default [] (source_lines w f))) srcs.

(** The world of the process that reads the sources: the calling process
    without workers, a worker process with workers. *)
Definition reader_world (w : world) (workers : value) : world :=
  match workers with
  | VNone => w
  | _ => worker_world w
  end.

(** * Properties *)

(** ** The tokenizer emits maximal runs of word characters *)

Module TokenizerFacts.
Import Tokenizer.

Lemma append_nil_l (s : string) : EmptyString +:+ s = s.
Proof. reflexivity. Qed.

Lemma append_cons (c : ascii) (a b : string) :
  String c a +:+ b = String c (a +:+ b).
Proof. reflexivity. Qed.

Lemma append_nil_r (s : string) : s +:+ EmptyString = s.
Proof.
  induction s as [|c s IH]; [reflexivity | rewrite append_cons; now rewrite IH].
Qed.

Lemma append_assoc (a b c : string) : (a +:+ b) +:+ c = a +:+ (b +:+ c).
Proof.
  induction a as [|x a IH]; [reflexivity | rewrite !append_cons; now rewrite IH].
Qed.

Lemma all_word_chars_app (a b : string) :
  all_word_chars (a +:+ b) <-> all_word_chars a /\ all_word_chars b.
Proof.
  induction a as [|x a IH]; [rewrite append_nil_l | rewrite append_cons];
    simpl; tauto.
Qed.

(** The class [a-zA-Z0-9] by character code: digits, capital letters, small
    letters of ASCII. *)
Lemma word_char_codes (c : ascii) :
  word_char c = true <->
  (48 <= nat_of_ascii c <= 57 \/ 65 <= nat_of_ascii c <= 90 \/
   97 <= nat_of_ascii c <= 122)%nat.
Proof.
  unfold word_char, in_range.
  rewrite !orb_true_iff, !andb_true_iff, !Nat.leb_le.
  change (nat_of_ascii "a") with 97%nat. change (nat_of_ascii "z") with 122%nat.
  change (nat_of_ascii "A") with 65%nat. change (nat_of_ascii "Z") with 90%nat.
  change (nat_of_ascii "0") with 48%nat. change (nat_of_ascii "9") with 57%nat.
  tauto.
Qed.

Lemma elem_of_emit (cur tok : string) :
  tok ∈ emit cur -> tok = cur /\ cur <> EmptyString.
Proof.
  destruct cur as [|c cur]; simpl; intros H.
  - inversion H.
  - apply list_elem_of_singleton in H. now subst.
Qed.

(** The invariant of the scan: a token that comes out either continues the
    pending match [cur], or lies wholly in the text still to be read, after
    a delimiter. *)
Lemma WORD_RE_finditer_runs (text cur tok : string) :
  all_word_chars cur ->
  tok ∈ WORD_RE_finditer cur text ->
  tok <> EmptyString /\ all_word_chars tok /\
  ((exists m post, tok = cur +:+ m /\ text = m +:+ post /\ closed_right post) \/
   (exists pre' c post,
       text = (pre' +:+ String c EmptyString) +:+ tok +:+ post /\
       word_char c = false /\ closed_right post)).
Proof.
  revert cur. induction text as [|c rest IH]; intros cur Hcur Hin; simpl in Hin.
  - apply elem_of_emit in Hin as [-> Hne]. repeat split; try assumption.
    left. exists EmptyString, EmptyString.
    split; [now rewrite append_nil_r | split; [reflexivity | now left]].
  - destruct (word_char c) eqn:Hc.
    + apply IH in Hin as (Hne & Hall & Hpos).
      2:{ apply all_word_chars_app. simpl. tauto. }
      repeat split; try assumption.
      destruct Hpos as [(m & post & -> & -> & Hr) | (pre' & d & post & -> & Hd & Hr)].
      * left. exists (String c m), post.
        rewrite append_assoc, !append_cons, append_nil_l. tauto.
      * right. exists (String c pre'), d, post. rewrite !append_cons. tauto.
    + apply elem_of_app in Hin as [Hin | Hin].
      * apply elem_of_emit in Hin as [-> Hne]. repeat split; try assumption.
        left. exists EmptyString, (String c rest).
        split; [now rewrite append_nil_r | split; [reflexivity | right; eauto]].
      * apply IH in Hin as (Hne & Hall & Hpos); [|exact I].
        repeat split; try assumption. right.
        destruct Hpos as [(m & post & -> & -> & Hr) | (pre' & d & post & -> & Hd & Hr)].
        -- exists EmptyString, c, post.
           rewrite !append_nil_l, append_cons, append_nil_l. tauto.
        -- exists (String c pre'), d, post. rewrite !append_cons. tauto.
Qed.

(** C6. Every token of [_tokenize_text text] is a nonempty run of characters
    of the class [a-zA-Z0-9] and is maximal where it stands: the text is
    [pre ++ tok ++ post], where [pre] is empty or ends in a character outside
    the class and [post] is empty or starts with one.  The tokenizer is a
    total function: no character makes it fail. *)
Theorem tokenize_text_maximal_runs (text tok : string) :
  tok ∈ _tokenize_text text ->
  tok <> EmptyString /\ all_word_chars tok /\
  exists pre post,
    text = pre +:+ tok +:+ post /\ closed_left pre /\ closed_right post.
Proof.
  intros Hin. apply WORD_RE_finditer_runs in Hin as (Hne & Hall & Hpos); [|exact I].
  repeat split; try assumption.
  destruct Hpos as [(m & post & -> & -> & Hr) | (pre' & d & post & -> & Hd & Hr)].
  - exists EmptyString, post.
    split; [reflexivity | split; [now left | exact Hr]].
  - exists (pre' +:+ String d EmptyString), post.
    split; [reflexivity | split; [right; eauto | exact Hr]].
Qed.

Lemma tokenize_text_maximal_runs_witness :
  "tok3n" ∈ _tokenize_text "the!!!!tok3n! !izer!" /\
  "tok3n" <> EmptyString /\ all_word_chars "tok3n" /\
  exists pre post,
    "the!!!!tok3n! !izer!" = pre +:+ "tok3n" +:+ post /\
    closed_left pre /\ closed_right post.
Proof.
  assert (H : "tok3n" ∈ _tokenize_text "the!!!!tok3n! !izer!").
  { vm_compute. repeat constructor. }
  split; [exact H | exact (tokenize_text_maximal_runs _ _ H)].
Defined.

End TokenizerFacts.

(** ** The cases of the repository's test suite *)

Module RepoTests.

Definition words5 : Histogram :=
  {| _words := list_to_map [("word1", 50); ("word2", 40); ("word3", 30);
                            ("word4", 20); ("word5", 10)];
     _total := 150 |}.

Definition words3 : Histogram :=
  {| _words := list_to_map [("word2", 20); ("word4", 50); ("word6", 80)];
     _total := 150 |}.

Example test_tokenize_text :
  Tokenizer._tokenize_text "This is A TEST OF the!!!!tok3n! !izer!" =
  ["This"; "is"; "A"; "TEST"; "OF"; "the"; "tok3n"; "izer"].
Proof. reflexivity. Qed.

Example test_add :
  let obj := add (add (add (add __init__ "SpAm") "sPaM") "spam") "spammER" in
  _words obj = list_to_map [("spam", 3); ("spammer", 1)] /\ _total obj = 4.
Proof. split; [apply map_eq; intros k | reflexivity]. vm_compute. reflexivity. Qed.

Example test_dunder_add_base :
  exists new_hist,
    __add__ words5 (VHistogram words3) = New new_hist /\
    map_to_list (_words new_hist) =
      map_to_list (list_to_map [("word1", 50); ("word2", 60); ("word3", 30);
                                ("word4", 70); ("word5", 10); ("word6", 80)]
                   : gmap string Z) /\
    _total new_hist = 300.
Proof. eexists. split; [reflexivity|]. split; vm_compute; reflexivity. Qed.

Example test_top_words_too_few :
  top_words words5 10 =
  Ok [("word1", 50); ("word2", 40); ("word3", 30); ("word4", 20); ("word5", 10)].
Proof. vm_compute. reflexivity. Qed.

Example test_top_words_small_count :
  top_words words5 4 =
  Ok [("word1", 50); ("word2", 40); ("word3", 30); ("word4", 20)].
Proof. vm_compute. reflexivity. Qed.

Example test_main_base :
  exists final_result,
    sum_values (replicate 5 (VHistogram words5)) __init__ = Ok final_result /\
    report final_result 10 false =
      (EvPrint <$> [LTotal 750; LDistinct 5; LTop 5;
                    LCount "word1" 250; LCount "word2" 200; LCount "word3" 150;
                    LCount "word4" 100; LCount "word5" 50],
       Ok tt).
Proof. eexists. split; [reflexivity|]. vm_compute. reflexivity. Qed.

End RepoTests.

(** ** [add] folds case *)

(** C7. After [add("Spam")], [add("sPAM")], [add("SPAM")] on an empty
    histogram there is one distinct word, the total is 3, and the only key
    stored is ["spam"], with count 3. *)
Theorem add_case_insensitive :
  let h := add (add (add __init__ "Spam") "sPAM") "SPAM" in
  distinct_words h = 1 /\ total_words h = 3 /\
  map_to_list (_words h) = [("spam", 3)] /\ _words h !! "spam" = Some 3.
Proof. vm_compute. repeat split; reflexivity. Qed.

(** ** Ranking *)

Module Ranking.

Lemma ltb_leb (a b : string) : String.ltb a b = true -> String.leb a b = true.
Proof. unfold String.ltb, String.leb. now destruct (String.compare a b). Qed.

Lemma ltb_false_leb (a b : string) : String.ltb a b = false -> String.leb b a = true.
Proof.
  unfold String.ltb, String.leb. rewrite (String.compare_antisym a b).
  now destruct (String.compare b a).
Qed.

Lemma leb_trans (a b c : string) :
  String.leb a b = true -> String.leb b c = true -> String.leb a c = true.
Proof.
  intros H1 H2. apply Is_true_true.
  apply (@transitivity _ String.le _ a b c); now apply Is_true_true.
Qed.

Lemma key_ltb_true (x y : item) : key_ltb x y = true -> code_order y x.
Proof.
  unfold key_ltb, code_order. intros H.
  apply orb_true_iff in H as [H | H].
  - left. lia.
  - apply andb_true_iff in H as [H1 H2]. right. split; [lia | now apply ltb_leb].
Qed.

Lemma key_ltb_false (x y : item) : key_ltb x y = false -> code_order x y.
Proof.
  unfold key_ltb, code_order. intros H.
  apply orb_false_iff in H as [H1 H2].
  destruct (Z.eqb_spec (snd x) (snd y)) as [Heq | Hne]; simpl in H2.
  - right. split; [exact Heq | now apply ltb_false_leb].
  - left. lia.
Qed.

#[local] Instance code_order_trans : Transitive code_order.
Proof.
  intros x y z [H1 | [H1 L1]] [H2 | [H2 L2]]; unfold code_order.
  - left. lia.
  - left. lia.
  - left. lia.
  - right. split; [congruence | exact (leb_trans _ _ _ L2 L1)].
Qed.

Lemma insert_reverse_elem (x y : item) (l : list item) :
  y ∈ insert_reverse x l <-> y = x \/ y ∈ l.
Proof.
  induction l as [|z l IH]; simpl.
  - rewrite list_elem_of_singleton, elem_of_nil. tauto.
  - destruct (key_ltb x z); rewrite !elem_of_cons; [rewrite IH|]; tauto.
Qed.

Lemma insert_reverse_sorted (x : item) (l : list item) :
  StronglySorted code_order l -> StronglySorted code_order (insert_reverse x l).
Proof.
  induction l as [|y l IH]; simpl; intros Hs.
  - repeat constructor.
  - apply StronglySorted_cons in Hs as [Hall Hs].
    destruct (key_ltb x y) eqn:Hk.
    + apply StronglySorted_cons. split; [|now apply IH].
      apply Forall_forall. intros z Hz.
      apply insert_reverse_elem in Hz as [-> | Hz].
      * now apply key_ltb_true.
      * rewrite Forall_forall in Hall. now apply Hall.
    + apply key_ltb_false in Hk.
      apply StronglySorted_cons. split.
      * constructor; [exact Hk|].
        eapply Forall_impl; [exact Hall|]. intros z Hz. now transitivity y.
      * apply StronglySorted_cons. now split.
Qed.

Lemma insert_reverse_perm (x : item) (l : list item) :
  insert_reverse x l ≡ₚ x :: l.
Proof.
  induction l as [|y l IH]; simpl; [reflexivity|].
  destruct (key_ltb x y); [|reflexivity].
  rewrite IH. apply Permutation_swap.
Qed.

Lemma sorted_reverse_sorted (l : list item) :
  StronglySorted code_order (sorted_reverse l).
Proof.
  induction l as [|x l IH]; simpl; [constructor | now apply insert_reverse_sorted].
Qed.

Lemma sorted_reverse_perm (l : list item) : sorted_reverse l ≡ₚ l.
Proof.
  induction l as [|x l IH]; simpl; [reflexivity|].
  now rewrite insert_reverse_perm, IH.
Qed.

Lemma take_sorted (n : nat) (l : list item) :
  StronglySorted code_order l -> StronglySorted code_order (take n l).
Proof.
  intros Hs. rewrite <- (take_drop n l) in Hs.
  now apply StronglySorted_app_1_l in Hs.
Qed.

#[local] Instance code_order_antisym : AntiSymm (=) code_order.
Proof.
  intros [w1 c1] [w2 c2] [H1 | [H1 L1]] [H2 | [H2 L2]]; simpl in *; try lia.
  f_equal; [now apply String.leb_antisym | exact H1].
Qed.

(** The sorted list does not depend on the order in which the dictionary
    hands out its items. *)
Lemma sorted_reverse_order_irrelevant (l l' : list item) :
  l ≡ₚ l' -> sorted_reverse l = sorted_reverse l'.
Proof.
  intros Hperm.
  apply (StronglySorted_unique code_order); try apply sorted_reverse_sorted.
  now rewrite !sorted_reverse_perm.
Qed.

(** *** Indexing and the tie loop *)

Lemma getitem_in_range {A : Type} (l : list A) (i : Z) :
  - len l <= i < len l -> exists x, getitem l i = Ok x.
Proof.
  intros Hi. unfold getitem.
  set (j := if i <? 0 then i + len l else i).
  assert (Hj : 0 <= j < len l) by (unfold j; destruct (Z.ltb_spec i 0); lia).
  destruct (Z.ltb_spec j 0); [lia|]. destruct (Z.leb_spec (len l) j); [lia|]. simpl.
  destruct (lookup_lt_is_Some_2 l (Z.to_nat j)) as [x ->]; [unfold len in *; lia|].
  eauto.
Qed.

Lemma getitem_out_of_range {A : Type} (l : list A) (i : Z) :
  i < - len l \/ len l <= i -> getitem l i = Raise IndexError.
Proof.
  intros Hi. unfold getitem.
  assert (Hlen : 0 <= len l) by (unfold len; lia).
  destruct (Z.ltb_spec i 0).
  - destruct (Z.ltb_spec (i + len l) 0); [reflexivity | lia].
  - destruct (Z.ltb_spec i 0); [lia|].
    destruct (Z.leb_spec (len l) i); [reflexivity | lia].
Qed.

(** With [fuel] set to [len(word_list) - count] the loop of [top_words]
    runs to its own exit: it stops at the end of the list or at the first
    entry whose count differs from [last_count]. *)
Lemma extend_ties_exit (fuel : nat) (word_list : list item) (last_count count : Z) :
  - len word_list <= count ->
  fuel = Z.to_nat (len word_list - count) ->
  exists count',
    extend_ties fuel word_list last_count count = Ok count' /\
    count <= count' /\
    (len word_list <= count' \/
     exists x, getitem word_list count' = Ok x /\ snd x <> last_count).
Proof.
  revert count. induction fuel as [|fuel IH]; intros count Hlow Hfuel; simpl.
  - exists count. split; [reflexivity|]. split; [lia|]. left. lia.
  - destruct (Z.ltb_spec count (len word_list)) as [Hlt|Hge]; [|lia].
    destruct (getitem_in_range word_list count) as [x Hx]; [lia|].
    rewrite Hx. simpl.
    destruct (Z.eqb_spec (snd x) last_count) as [Heq|Hne].
    + destruct (IH (count + 1)) as (c & Hc & Hle & Hexit); [lia | lia |].
      exists c. split; [exact Hc|]. split; [lia | exact Hexit].
    + exists count. split; [reflexivity|]. split; [lia|]. right. eauto.
Qed.

(** [top_words] returns a list exactly when [count > -len(word_list)]. *)
Lemma top_words_returns (h : Histogram) (count : Z) :
  - distinct_words h < count -> exists l, top_words h count = Ok l.
Proof.
  unfold distinct_words, top_words. intros Hcount.
  set (wl := sorted_reverse (map_to_list (_words h))).
  assert (Hlen : len wl = Z.of_nat (size (_words h))).
  { unfold len, wl. rewrite sorted_reverse_perm. f_equal.
    apply length_map_to_list. }
  destruct (Z.ltb_spec (len wl) count) as [_|Hle]; [eauto|].
  destruct (getitem_in_range wl (count - 1)) as [last ->]; [lia|]. simpl.
  destruct (extend_ties_exit (Z.to_nat (len wl - count)) wl (snd last) count)
    as (c & -> & _); [lia | reflexivity |].
  simpl. eauto.
Qed.

Lemma top_words_raises (h : Histogram) (count : Z) :
  count <= - distinct_words h -> top_words h count = Raise IndexError.
Proof.
  unfold distinct_words, top_words. intros Hcount.
  set (wl := sorted_reverse (map_to_list (_words h))).
  assert (Hlen : len wl = Z.of_nat (size (_words h))).
  { unfold len, wl. rewrite sorted_reverse_perm. f_equal.
    apply length_map_to_list. }
  destruct (Z.ltb_spec (len wl) count) as [Hlt|_]; [lia|].
  rewrite getitem_out_of_range by lia. reflexivity.
Qed.

(** Whatever [top_words] returns is a prefix of the sorted list. *)
Lemma top_words_prefix (h : Histogram) (count : Z) (l : list item) :
  top_words h count = Ok l ->
  exists n, l = take n (sorted_reverse (map_to_list (_words h))).
Proof.
  unfold top_words.
  set (wl := sorted_reverse (map_to_list (_words h))).
  destruct (len wl <? count).
  - intros [= <-]. exists (length wl). now rewrite firstn_all.
  - destruct (getitem wl (count - 1)) as [last|e]; simpl; [|discriminate].
    destruct (extend_ties _ wl (snd last) count) as [c|e]; simpl; [|discriminate].
    intros [= <-]. unfold slice_to. eauto.
Qed.

(** C3 (as the code has it). Whatever list [top_words] returns is sorted by
    count, largest first, and entries of equal count by word, largest
    first. *)
Theorem top_words_sorted (h : Histogram) (count : Z) (l : list item) :
  top_words h count = Ok l -> StronglySorted code_order l.
Proof.
  intros H. apply top_words_prefix in H as [n ->].
  apply take_sorted, sorted_reverse_sorted.
Qed.

Lemma top_words_sorted_witness :
  top_words tie_example 2 = Ok [("b", 1); ("a", 1)] /\
  StronglySorted code_order [("b", 1); ("a", 1)].
Proof.
  assert (H : top_words tie_example 2 = Ok [("b", 1); ("a", 1)])
    by (vm_compute; reflexivity).
  split; [exact H | exact (top_words_sorted _ _ _ H)].
Defined.

(** C3 as stated fails: with two words of equal count the larger word comes
    first, so the list is not in ascending word order among ties. *)
Lemma top_words_not_spec_order :
  top_words tie_example 2 = Ok [("b", 1); ("a", 1)] /\
  ~ StronglySorted spec_order [("b", 1); ("a", 1)].
Proof.
  split; [vm_compute; reflexivity|].
  intros Hs. apply StronglySorted_cons in Hs as [Hall _].
  apply Forall_cons in Hall as [[Hlt | [_ Hle]] _]; simpl in *.
  - lia.
  - vm_compute in Hle. discriminate.
Qed.

(** C4. With counts word1:50, word2:40, word3:40, word4:40, word5:10,
    [top_words(3)] is word1, then the three words tied at 40 (word4, word3,
    word2), and word5 is left out. *)
Theorem top_words_tie_at_boundary (total : Z) :
  top_words {| _words := list_to_map [("word1", 50); ("word2", 40); ("word3", 40);
                                      ("word4", 40); ("word5", 10)];
               _total := total |} 3
  = Ok [("word1", 50); ("word4", 40); ("word3", 40); ("word2", 40)].
Proof. vm_compute. reflexivity. Qed.

(** C10. [top_words(0)] on an empty histogram: [len(word_list) < count] is
    [0 < 0], so the early return is not taken, and [word_list[count - 1]] is
    [word_list[-1]] on an empty list: [IndexError]. *)
Theorem top_words_zero_empty_raises :
  top_words __init__ 0 = Raise IndexError.
Proof. vm_compute. reflexivity. Qed.

End Ranking.

(** ** Merging histograms *)

Module Merge.

(** *** What the merge loop leaves in the dictionary *)

Lemma lookup_iadd_item (d : gmap string Z) (word k : string) (count : Z) :
  iadd_item d word count !! k =
  if decide (word = k) then Some (getitem_default d k + count) else d !! k.
Proof.
  unfold iadd_item. rewrite lookup_insert.
  destruct (decide (word = k)) as [->|]; reflexivity.
Qed.

Lemma lookup_foldl_iadd (l : list (string * Z)) (d : gmap string Z) (k : string) :
  NoDup (l.*1) ->
  foldl (fun d '(word, count) => iadd_item d word count) d l !! k =
  match (list_to_map l : gmap string Z) !! k with
  | Some count => Some (getitem_default d k + count)
  | None => d !! k
  end.
Proof.
  revert d. induction l as [|[word count] l IH]; intros d Hnd; simpl.
  - now rewrite lookup_empty.
  - rewrite fmap_cons in Hnd. simpl in Hnd.
    apply NoDup_cons in Hnd as [Hfresh Hnd].
    rewrite IH by assumption.
    apply (not_elem_of_list_to_map_1 (M := gmap string)) in Hfresh.
    rewrite lookup_insert.
    destruct (decide (word = k)) as [->|Hne].
    + rewrite Hfresh, lookup_iadd_item. now rewrite decide_True.
    + unfold getitem_default. rewrite lookup_iadd_item.
      now rewrite decide_False.
Qed.

Lemma lookup_iadd_words (a b : gmap string Z) (k : string) :
  iadd_words a b !! k =
  match b !! k with
  | Some count => Some (getitem_default a k + count)
  | None => a !! k
  end.
Proof.
  unfold iadd_words. rewrite lookup_foldl_iadd by apply NoDup_fst_map_to_list.
  now rewrite list_to_map_to_list.
Qed.

(** The merge does not depend on the order in which [other]'s dictionary
    hands out its items. *)
Lemma iadd_words_order_irrelevant (a b : gmap string Z) (l : list (string * Z)) :
  l ≡ₚ map_to_list b ->
  foldl (fun d '(word, count) => iadd_item d word count) a l = iadd_words a b.
Proof.
  intros Hperm. apply map_eq. intros k.
  assert (Hnd : NoDup (l.*1)).
  { rewrite Hperm. apply NoDup_fst_map_to_list. }
  rewrite lookup_foldl_iadd by exact Hnd.
  rewrite (list_to_map_proper l (map_to_list b) Hnd Hperm).
  now rewrite list_to_map_to_list, lookup_iadd_words.
Qed.

(** Folding an empty histogram's dictionary into a fresh one gives it back:
    the first [new_hist += self] of [__add__] copies [self]. *)
Lemma iadd_words_empty_l (a : gmap string Z) : iadd_words ∅ a = a.
Proof.
  apply map_eq. intros k. rewrite lookup_iadd_words, lookup_empty.
  unfold getitem_default. rewrite lookup_empty. simpl.
  destruct (a !! k); reflexivity.
Qed.

Lemma add_histogram (a b : Histogram) : __add__ a (VHistogram b) = New (plus a b).
Proof.
  unfold __add__, plus. simpl. rewrite iadd_words_empty_l.
  now rewrite Z.add_0_l.
Qed.

Lemma binary_add_histogram (a b : Histogram) :
  binary_add a (VHistogram b) = Ok (plus a b).
Proof. unfold binary_add. now rewrite add_histogram. Qed.

Lemma iadd_words_comm (a b : gmap string Z) : iadd_words a b = iadd_words b a.
Proof.
  apply map_eq. intros k. rewrite !lookup_iadd_words. unfold getitem_default, _zero.
  destruct (a !! k), (b !! k); simpl; try reflexivity; f_equal; lia.
Qed.

Lemma iadd_words_assoc (a b c : gmap string Z) :
  iadd_words (iadd_words a b) c = iadd_words a (iadd_words b c).
Proof.
  apply map_eq. intros k. rewrite !lookup_iadd_words. unfold getitem_default.
  rewrite !lookup_iadd_words. unfold getitem_default, _zero.
  destruct (a !! k), (b !! k), (c !! k); simpl; try reflexivity; f_equal; lia.
Qed.

Lemma plus_comm (a b : Histogram) : plus a b = plus b a.
Proof. unfold plus. f_equal; [apply iadd_words_comm | lia]. Qed.

Lemma plus_assoc (a b c : Histogram) : plus (plus a b) c = plus a (plus b c).
Proof. unfold plus. simpl. f_equal; [apply iadd_words_assoc | lia]. Qed.

(** *** The invariant *)

Lemma counts_sum_empty : counts_sum ∅ = 0.
Proof. unfold counts_sum. now rewrite map_fold_empty. Qed.

Lemma counts_sum_insert_fresh (m : gmap string Z) (k : string) (v : Z) :
  m !! k = None -> counts_sum (<[k := v]> m) = v + counts_sum m.
Proof.
  intros Hk. unfold counts_sum. rewrite map_fold_insert_L; [reflexivity | | exact Hk].
  intros. lia.
Qed.

Lemma counts_sum_delete (m : gmap string Z) (k : string) (v : Z) :
  m !! k = Some v -> counts_sum m = v + counts_sum (delete k m).
Proof.
  intros Hk. unfold counts_sum.
  rewrite (map_fold_delete_L _ _ k v m); [reflexivity | | exact Hk].
  intros. lia.
Qed.

Lemma counts_sum_iadd_item (d : gmap string Z) (word : string) (count : Z) :
  counts_sum (iadd_item d word count) = counts_sum d + count.
Proof.
  unfold iadd_item, getitem_default, _zero.
  destruct (d !! word) as [v|] eqn:Hw; simpl.
  - rewrite <- insert_delete_eq.
    rewrite counts_sum_insert_fresh by apply lookup_delete_eq.
    rewrite (counts_sum_delete d word v Hw). lia.
  - rewrite counts_sum_insert_fresh by exact Hw. lia.
Qed.

Lemma counts_sum_foldl (l : list (string * Z)) (d : gmap string Z) :
  counts_sum (foldl (fun d '(word, count) => iadd_item d word count) d l) =
  counts_sum d + foldr Z.add 0 (l.*2).
Proof.
  revert d. induction l as [|[word count] l IH]; intros d.
  - rewrite fmap_nil. simpl. lia.
  - rewrite fmap_cons. simpl. rewrite IH, counts_sum_iadd_item. lia.
Qed.

Lemma counts_sum_values (m : gmap string Z) :
  counts_sum m = foldr Z.add 0 ((map_to_list m).*2).
Proof.
  unfold counts_sum. rewrite map_fold_foldr.
  induction (map_to_list m) as [|[k v] l IH]; [reflexivity|].
  rewrite fmap_cons. simpl. now rewrite IH.
Qed.

Lemma counts_sum_iadd_words (a b : gmap string Z) :
  counts_sum (iadd_words a b) = counts_sum a + counts_sum b.
Proof. unfold iadd_words. now rewrite counts_sum_foldl, <- counts_sum_values. Qed.

Lemma lower_char_not_capital (c : ascii) :
  Tokenizer.in_range "A"%char "Z"%char (lower_char c) = false.
Proof. destruct c as [[] [] [] [] [] [] [] []]; vm_compute; reflexivity. Qed.

Lemma lower_lowercase (s : string) : lowercase (lower s).
Proof.
  induction s as [|c s IH]; simpl; [exact I | split; [apply lower_char_not_capital | exact IH]].
Qed.

Lemma invariant_init : invariant __init__.
Proof.
  split; simpl.
  - now rewrite counts_sum_empty.
  - intros word [v Hv]. now rewrite lookup_empty in Hv.
Qed.

Lemma invariant_add (h : Histogram) (word : string) :
  invariant h -> invariant (add h word).
Proof.
  intros [Hsum Hkeys]. split; simpl.
  - rewrite counts_sum_iadd_item. lia.
  - intros k Hk. rewrite lookup_iadd_item in Hk.
    destruct (decide (lower word = k)) as [<-|]; [apply lower_lowercase | now apply Hkeys].
Qed.

Lemma invariant_iadd (self other : Histogram) :
  invariant self -> invariant other ->
  invariant (fst (__iadd__ self (VHistogram other))).
Proof.
  intros [Hsum Hkeys] [Hsum' Hkeys']. split; simpl.
  - rewrite counts_sum_iadd_words. lia.
  - intros k Hk. rewrite lookup_iadd_words in Hk.
    destruct (_words other !! k) eqn:Hother; [apply Hkeys'; eauto | now apply Hkeys].
Qed.

Lemma invariant_plus (a b : Histogram) :
  invariant a -> invariant b -> invariant (plus a b).
Proof. apply invariant_iadd. Qed.

(** C5. The invariant (the total is the sum of the stored counts, and every
    stored key is lowercase) holds for the empty histogram and is kept by
    [add], by [+=] with a histogram and by [+] of two histograms. *)
Theorem invariant_preserved :
  invariant __init__ /\
  (forall h word, invariant h -> invariant (add h word)) /\
  (forall self other, invariant self -> invariant other ->
     invariant (fst (__iadd__ self (VHistogram other)))) /\
  (forall self other, invariant self -> invariant other ->
     exists new_hist,
       __add__ self (VHistogram other) = New new_hist /\ invariant new_hist).
Proof.
  split; [apply invariant_init|].
  split; [apply invariant_add|].
  split; [apply invariant_iadd|].
  intros self other Hs Ho. exists (plus self other).
  split; [apply add_histogram | now apply invariant_plus].
Qed.

Lemma invariant_preserved_witness :
  invariant (add __init__ "Spam") /\
  invariant (fst (__iadd__ (add __init__ "Spam") (VHistogram (add __init__ "eggs")))).
Proof.
  destruct invariant_preserved as (H0 & Hadd & Hiadd & _).
  split; [apply Hadd, H0 | apply Hiadd; apply Hadd, H0].
Defined.

(** *** Operands that are not histograms *)

(** C9. With a right operand that is not a [Histogram], [__add__] and
    [__iadd__] return [NotImplemented], the operators [+] and [+=] raise
    [TypeError], and the histogram is left as it was. *)
Theorem add_non_histogram_not_implemented (h : Histogram) (v : value) :
  (forall other, v <> VHistogram other) ->
  __add__ h v = NotImplemented /\
  __iadd__ h v = (h, INotImplemented) /\
  binary_add h v = Raise TypeError /\
  inplace_add h v = (h, Raise TypeError).
Proof.
  intros Hv. unfold inplace_add, binary_add.
  destruct v as [other| | |]; [now destruct (Hv other) | | |]; simpl; auto.
Qed.

Lemma add_non_histogram_not_implemented_witness :
  __add__ (add __init__ "spam") (VStr "other") = NotImplemented /\
  __iadd__ (add __init__ "spam") (VStr "other") =
    (add __init__ "spam", INotImplemented) /\
  binary_add (add __init__ "spam") (VStr "other") = Raise TypeError /\
  inplace_add (add __init__ "spam") (VStr "other") =
    (add __init__ "spam", Raise TypeError).
Proof.
  apply (add_non_histogram_not_implemented (add __init__ "spam") (VStr "other")).
  intros other. discriminate.
Defined.

(** C2. [+] on histograms is commutative and associative; the results are
    equal as records, that is, in their total and in every per-word count. *)
Theorem add_commutative_associative (a b c : Histogram) :
  binary_add a (VHistogram b) = binary_add b (VHistogram a) /\
  (ab ← binary_add a (VHistogram b); binary_add ab (VHistogram c)) =
  (bc ← binary_add b (VHistogram c); binary_add a (VHistogram bc)) /\
  exists abc, (ab ← binary_add a (VHistogram b); binary_add ab (VHistogram c)) = Ok abc.
Proof.
  rewrite !binary_add_histogram. simpl.
  unfold mbind, result_bind. rewrite !binary_add_histogram.
  split; [now rewrite plus_comm|].
  split; [now rewrite plus_assoc | eauto].
Qed.

End Merge.

(** ** [main]: argument checks, serial and pooled collection *)

Module MainFacts.
Import Merge.

Lemma snd_bind {A B : Type} (m : io A) (k : A -> io B) :
  snd (m ≫= k) =
  match snd m with
  | Ok a => snd (k a)
  | Raise e => Raise e
  end.
Proof.
  destruct m as [t [a|e]]; simpl; [|reflexivity].
  unfold mbind, io_bind. now destruct (k a).
Qed.

(** *** The result of reading one source *)

Lemma snd_histogram_from_file (w : world) (fname : option string) :
  snd (histogram_from_file w fname) =
  match source_hist w fname with
  | Some h => Ok h
  | None => Raise IOError
  end.
Proof.
  destruct fname as [fname|]; simpl; [|reflexivity].
  now destruct (file_lines w fname).
Qed.

Lemma snd_in_worker {A : Type} (worker : nat) (m : io A) :
  snd (in_worker worker m) = snd m.
Proof. reflexivity. Qed.

Lemma collect_ok (w : world) (files : list (option string)) :
  Forall (fun f => is_Some (source_hist w f)) files ->
  collect w files = Ok (hist_value w <$> files).
Proof.
  induction 1 as [|f files [h Hh] _ IH]; simpl; [reflexivity|].
  unfold hist_value at 1. now rewrite Hh, IH.
Qed.

Lemma collect_fail (w : world) (files : list (option string)) :
  Exists (fun f => source_hist w f = None) files ->
  collect w files = Raise IOError.
Proof.
  induction 1 as [f files Hf | f files _ IH]; simpl.
  - now rewrite Hf.
  - rewrite IH. now destruct (source_hist w f).
Qed.

Lemma snd_serial_map (w : world) (files : list (option string)) :
  snd (serial_map w files) = collect w files.
Proof.
  induction files as [|f files IH]; simpl; [reflexivity|].
  rewrite snd_bind, snd_histogram_from_file.
  destruct (source_hist w f) as [h|]; [|reflexivity].
  rewrite snd_bind, IH. now destruct (collect w files).
Qed.

(** *** The pool delivers what the serial loop delivers *)

(** One step of the pool picks a task that is pending. *)
Lemma pick_pending {A : Type} (k : nat) (task0 : A) (rest : list A) :
  let pending := task0 :: rest in
  let i := (k mod length pending)%nat in
  pending !! i = Some (nth i pending task0) /\
  pending ≡ₚ nth i pending task0 :: delete i pending /\
  length (delete i pending) = length rest.
Proof.
  intros pending i.
  assert (Hi : (i < length pending)%nat)
    by (apply Nat.mod_upper_bound; simpl; lia).
  destruct (lookup_lt_is_Some_2 pending i Hi) as [t Ht].
  rewrite nth_lookup, Ht. simpl.
  split; [reflexivity|]. split; [now apply delete_Permutation|].
  rewrite length_delete by eauto. simpl. lia.
Qed.

(** One unfolding of [pool_tasks] on a nonempty list of pending tasks. *)
Lemma pool_tasks_step (w : world) (processes : nat) (oracle : list (nat * nat))
    (fuel : nat) (task0 : nat * option string) (rest : list (nat * option string))
    (slots : list value) (k worker index : nat) (fname : option string) :
  hd (0%nat, 0%nat) oracle = (k, worker) ->
  nth (k mod length (task0 :: rest)) (task0 :: rest) task0 = (index, fname) ->
  pool_tasks w processes oracle (S fuel) (task0 :: rest) slots =
  (h ← in_worker (worker mod processes)%nat
         (histogram_from_file (worker_world w) fname);
   pool_tasks w processes (tl oracle) fuel
              (delete (k mod length (task0 :: rest))%nat (task0 :: rest))
              (<[index := VHistogram h]> slots)).
Proof.
  intros Hhd Hnth. cbn [pool_tasks]. rewrite Hhd. now rewrite Hnth.
Qed.

(** When every pending source can be read, the pool fills the slot of
    every pending task with the histogram of its source and leaves the
    other slots alone, whatever the oracle. *)
Lemma pool_tasks_ok (w : world) (processes : nat) (fuel : nat) :
  forall (oracle : list (nat * nat)) (pending : list (nat * option string))
         (slots : list value),
    length pending = fuel ->
    NoDup (pending.*1) ->
    Forall (fun t => is_Some (source_hist (worker_world w) (snd t))) pending ->
    exists slots',
      snd (pool_tasks w processes oracle fuel pending slots) = Ok slots' /\
      length slots' = length slots /\
      (forall j f, (j, f) ∈ pending -> (j < length slots)%nat ->
                   slots' !! j = Some (hist_value (worker_world w) f)) /\
      (forall j, j ∉ pending.*1 -> slots' !! j = slots !! j).
Proof.
  induction fuel as [|fuel IH]; intros oracle pending slots Hlen Hnd Hok.
  - destruct pending; [|discriminate]. exists slots. simpl.
    repeat split; try reflexivity.
    intros j f Hin. inversion Hin.
  - destruct pending as [|task0 rest]; [discriminate|].
    destruct (pick_pending (fst (hd (0%nat, 0%nat) oracle)) task0 rest)
      as (Hlook & Hperm & Hlen').
    cbn zeta in Hlook, Hperm, Hlen'.
    destruct (hd (0%nat, 0%nat) oracle) as [k worker] eqn:Hhd. simpl fst in *.
    destruct (nth (k mod length (task0 :: rest)) (task0 :: rest) task0)
      as [index fname] eqn:Htask.
    rewrite (pool_tasks_step _ _ _ _ _ _ _ _ _ _ _ Hhd Htask).
    set (pending := task0 :: rest) in *.
    set (i := (k mod length pending)%nat) in *.
    assert (Hin : (index, fname) ∈ pending)
      by (apply list_elem_of_lookup; eauto).
    assert (Hnd' : NoDup (index :: (delete i pending).*1)).
    { change (NoDup (((index, fname) :: delete i pending).*1)).
      now rewrite <- Hperm. }
    apply NoDup_cons in Hnd' as [Hfresh Hnd'].
    assert (Hok' : Forall (fun t => is_Some (source_hist (worker_world w) (snd t)))
                          ((index, fname) :: delete i pending))
      by now rewrite <- Hperm.
    apply Forall_cons in Hok' as [[h Hh] Hok'].
    rewrite snd_bind, snd_in_worker, snd_histogram_from_file. simpl in Hh.
    rewrite Hh.
    destruct (IH (tl oracle) (delete i pending) (<[index := VHistogram h]> slots))
      as (slots' & Hrun & Hlens & Hfilled & Hother);
      [simpl in Hlen; lia | exact Hnd' | exact Hok' |].
    exists slots'. rewrite length_insert in Hlens, Hfilled.
    split; [exact Hrun|]. split; [exact Hlens|]. split.
    + intros j f Hj Hlt. rewrite Hperm in Hj.
      apply elem_of_cons in Hj as [[= -> ->] | Hj].
      * rewrite Hother by exact Hfresh.
        rewrite list_lookup_insert_eq by exact Hlt.
        unfold hist_value. now rewrite Hh.
      * now apply Hfilled.
    + intros j Hj.
      assert (Hj' : j ∉ index :: (delete i pending).*1).
      { change (j ∉ ((index, fname) :: delete i pending).*1).
        now rewrite <- Hperm. }
      apply not_elem_of_cons in Hj' as [Hne Hj'].
      rewrite Hother by exact Hj'.
      now rewrite list_lookup_insert_ne by congruence.
Qed.

(** When a pending source cannot be read the pool ends in [IOError]:
    every pending task is run unless an earlier one has failed already. *)
Lemma pool_tasks_fail (w : world) (processes : nat) (fuel : nat) :
  forall (oracle : list (nat * nat)) (pending : list (nat * option string))
         (slots : list value),
    length pending = fuel ->
    Exists (fun t => source_hist (worker_world w) (snd t) = None) pending ->
    snd (pool_tasks w processes oracle fuel pending slots) = Raise IOError.
Proof.
  induction fuel as [|fuel IH]; intros oracle pending slots Hlen Hbad.
  - destruct pending; [inversion Hbad | discriminate].
  - destruct pending as [|task0 rest]; [discriminate|].
    destruct (pick_pending (fst (hd (0%nat, 0%nat) oracle)) task0 rest)
      as (Hlook & Hperm & Hlen').
    cbn zeta in Hlook, Hperm, Hlen'.
    destruct (hd (0%nat, 0%nat) oracle) as [k worker] eqn:Hhd. simpl fst in *.
    destruct (nth (k mod length (task0 :: rest)) (task0 :: rest) task0)
      as [index fname] eqn:Htask.
    rewrite (pool_tasks_step _ _ _ _ _ _ _ _ _ _ _ Hhd Htask).
    rewrite snd_bind, snd_in_worker, snd_histogram_from_file.
    destruct (source_hist (worker_world w) fname) as [h|] eqn:Hh; [|reflexivity].
    apply IH; [simpl in Hlen; lia|].
    rewrite Hperm in Hbad. apply Exists_cons in Hbad as [Hbad | Hbad]; [|exact Hbad].
    simpl in Hbad. congruence.
Qed.

(** The pool delivers what a serial loop would deliver in the world of the
    workers. *)
Lemma pool_map_collect (w : world) (processes : nat) (oracle : list (nat * nat))
    (files : list (option string)) :
  snd (pool_map w processes oracle files) = collect (worker_world w) files.
Proof.
  unfold pool_map.
  destruct (Forall_Exists_dec
              (fun f => is_Some (source_hist (worker_world w) f))
              (fun f => source_hist (worker_world w) f = None)
              (fun f => match source_hist (worker_world w) f as o
                          return {is_Some o} + {o = None} with
                        | Some h => left (ex_intro _ h eq_refl)
                        | None => right eq_refl
                        end) files) as [Hok | Hbad].
  - rewrite (collect_ok _ _ Hok).
    destruct (pool_tasks_ok w processes (length files) oracle (imap pair files)
                (replicate (length files) VNone))
      as (slots' & -> & Hlen & Hfilled & _).
    + apply length_imap.
    + rewrite fmap_imap.
      rewrite (imap_ext _ (fun j _ => j)) by reflexivity.
      rewrite imap_seq_0, list_fmap_id. apply NoDup_seq.
    + apply Forall_forall. intros t Ht.
      apply elem_of_lookup_imap_1 in Ht as (j & f & -> & Hf). simpl.
      rewrite Forall_forall in Hok. apply Hok.
      apply list_elem_of_lookup. eauto.
    + f_equal. rewrite length_replicate in Hlen, Hfilled.
      apply list_eq. intros j. rewrite list_lookup_fmap.
      destruct (files !! j) as [f|] eqn:Hf; simpl.
      * apply Hfilled; [now apply elem_of_lookup_imap_2|].
        now apply lookup_lt_Some in Hf.
      * apply lookup_ge_None. apply lookup_ge_None in Hf. lia.
  - rewrite (collect_fail _ _ Hbad).
    apply pool_tasks_fail; [apply length_imap|].
    apply Exists_exists in Hbad as (f & Hin & Hf).
    apply list_elem_of_lookup in Hin as [j Hj].
    apply Exists_exists. exists (j, f).
    split; [now apply elem_of_lookup_imap_2 | exact Hf].
Qed.

(** *** Summing the collected histograms *)

Lemma sum_values_histograms (hs : list Histogram) (start : Histogram) :
  sum_values (VHistogram <$> hs) start = Ok (foldl plus start hs).
Proof.
  revert start. induction hs as [|h hs IH]; intros start; [reflexivity|].
  rewrite fmap_cons. cbn [sum_values]. rewrite binary_add_histogram.
  exact (IH (plus start h)).
Qed.



(** *** Nothing is printed before the report *)

Lemma fst_bind {A B : Type} (m : io A) (k : A -> io B) :
  fst (m ≫= k) =
  fst m ++ match snd m with
           | Ok a => fst (k a)
           | Raise e => []
           end.
Proof.
  destruct m as [t [a|e]]; simpl.
  - unfold mbind, io_bind. now destruct (k a).
  - now rewrite app_nil_r.
Qed.

Lemma printed_app (t t' : list event) : printed (t ++ t') = printed t ++ printed t'.
Proof.
  induction t as [|e t IH]; simpl; [reflexivity|].
  destruct e; simpl; now rewrite IH.
Qed.

Lemma printed_in_worker {A : Type} (worker : nat) (m : io A) :
  printed (fst (in_worker worker m)) = [].
Proof. unfold in_worker. simpl. induction (fst m); simpl; auto. Qed.

Lemma printed_histogram_from_file (w : world) (fname : option string) :
  printed (fst (histogram_from_file w fname)) = [].
Proof.
  destruct fname as [fname|]; simpl; [|reflexivity].
  now destruct (file_lines w fname).
Qed.

Lemma printed_serial_map (w : world) (files : list (option string)) :
  printed (fst (serial_map w files)) = [].
Proof.
  induction files as [|f files IH]; simpl; [reflexivity|].
  rewrite fst_bind, printed_app, printed_histogram_from_file.
  destruct (snd (histogram_from_file w f)); [|reflexivity].
  rewrite fst_bind, printed_app, IH.
  now destruct (snd (serial_map w files)).
Qed.

Lemma printed_pool_tasks (w : world) (processes : nat) (fuel : nat) :
  forall (oracle : list (nat * nat)) (pending : list (nat * option string))
         (slots : list value),
    printed (fst (pool_tasks w processes oracle fuel pending slots)) = [].
Proof.
  induction fuel as [|fuel IH]; intros oracle pending slots; [reflexivity|].
  destruct pending as [|task0 rest]; [reflexivity|].
  destruct (hd (0%nat, 0%nat) oracle) as [k worker] eqn:Hhd.
  destruct (nth (k mod length (task0 :: rest)) (task0 :: rest) task0)
    as [index fname] eqn:Htask.
  rewrite (pool_tasks_step _ _ _ _ _ _ _ _ _ _ _ Hhd Htask).
  rewrite fst_bind, printed_app, printed_in_worker.
  destruct (snd (in_worker _ _)); [apply IH | reflexivity].
Qed.

Lemma printed_main_final_result (w : world) (oracle : list (nat * nat))
    (files : list string) (workers : value) :
  printed (fst (main_final_result w oracle files workers)) = [].
Proof.
  unfold main_final_result.
  destruct (1 <? len (filter (fun f => f = "-") files)); [reflexivity|].
  rewrite fst_bind, printed_app.
  match goal with
  | |- printed (fst ?m) ++ _ = [] =>
      assert (Hq : printed (fst m) = [])
  end.
  { destruct workers as [h|s|n|]; try reflexivity; [|apply printed_serial_map].
    destruct (n <? 0); [reflexivity|].
    destruct (n =? 0);
      repeat (progress (rewrite ?snd_bind, ?fst_bind, ?printed_app;
                        cbn [emit_event mret io_ret fst snd printed app]));
      unfold pool_map; now rewrite printed_pool_tasks. }
  rewrite Hq.
  match goal with
  | |- [] ++ printed match ?r with _ => _ end = [] => now destruct r
  end.
Qed.

(** C1. The pool does not deliver what the serial loop delivers when
    standard input is among the files.  With the files [a.txt], [-], [b.txt]
    of [w_ex] the serial run counts 9 words, one of them ["x"] from standard
    input; with 3 workers, whatever the order in which they finish, [main]
    counts 6 words and no ["x"]: the worker that is given [-] reads an empty
    standard input. *)
Theorem pool_drops_standard_input (oracle : list (nat * nat)) :
  (h ← snd (main_final_result w_ex oracle ["a.txt"; "-"; "b.txt"] VNone);
   Ok (total_words h, getitem_default (_words h) "x")) = Ok (9, 1) /\
  (h ← snd (main_final_result w_ex oracle ["a.txt"; "-"; "b.txt"] (VInt 3));
   Ok (total_words h, getitem_default (_words h) "x")) = Ok (6, 0).
Proof.
  split.
  - vm_compute. reflexivity.
  - unfold main_final_result.
    destruct (1 <? len (filter (fun f => f = "-") ["a.txt"; "-"; "b.txt"])) eqn:Hdash;
      [vm_compute in Hdash; discriminate|].
    destruct (Z.ltb_spec 3 0) as [Hneg|_]; [lia|].
    change (3 =? 0) with false.
    repeat (rewrite snd_bind; cbn [emit_event mret io_ret snd]).
    rewrite pool_map_collect. vm_compute. reflexivity.
Qed.

(** *** Arguments are checked before anything else happens *)

(** C8. When ["-"] is given more than once, or [workers] is a negative
    integer or not an integer, [main] raises [ValueError] and its trace of
    events is empty: no source was read or opened, the number of CPUs was not
    asked for, no pool was created, nothing was printed. *)
Theorem main_rejects_before_io (w : world) (oracle : list (nat * nat))
    (files : list string) (count : Z) (percentages : bool) (workers : value) :
  1 < len (filter (fun f => f = "-") files) \/
  (exists n, workers = VInt n /\ n < 0) \/
  (workers <> VNone /\ forall n, workers <> VInt n) ->
  main w oracle files count percentages workers = ([], Raise ValueError).
Proof.
  intros H. unfold main, main_final_result.
  destruct (Z.ltb_spec 1 (len (filter (fun f => f = "-") files))) as [Hdup|Hdup];
    [reflexivity|].
  destruct H as [H | [(n & -> & Hn) | [Hnone Hint]]]; [lia | |].
  - destruct (Z.ltb_spec n 0); [reflexivity | lia].
  - destruct workers as [h|s|n|]; try reflexivity.
    + now destruct (Hint n).
    + now destruct Hnone.
Qed.

Lemma main_rejects_before_io_witness :
  main w_ex [] ["file0"; "-"; "file2"; "-"; "file4"] 10 false VNone =
    ([], Raise ValueError) /\
  main w_ex [] ["a.txt"] 10 false (VInt (-1)) = ([], Raise ValueError) /\
  main w_ex [] ["a.txt"] 10 false (VStr "workers") = ([], Raise ValueError).
Proof.
  split; [|split]; apply main_rejects_before_io.
  - left. vm_compute. reflexivity.
  - right. left. exists (-1). split; [reflexivity | lia].
  - right. right. split; [discriminate | intros n; discriminate].
Defined.

End MainFacts.


(** ** More on the tokenizer *)

Module TokenizerMore.
Import Tokenizer TokenizerFacts.

Lemma concat_strings_app (l l' : list string) :
  concat_strings (l ++ l') = concat_strings l +:+ concat_strings l'.
Proof.
  induction l as [|x l IH]; [reflexivity|].
  change (x +:+ concat_strings (l ++ l') =
          (x +:+ concat_strings l) +:+ concat_strings l').
  now rewrite IH, append_assoc.
Qed.

Lemma concat_strings_emit (cur : string) : concat_strings (emit cur) = cur.
Proof.
  destruct cur as [|c cur]; [reflexivity|].
  change (String c cur +:+ EmptyString = String c cur). apply append_nil_r.
Qed.

Lemma WORD_RE_finditer_concat (text cur : string) :
  concat_strings (WORD_RE_finditer cur text) = cur +:+ word_chars_of text.
Proof.
  revert cur. induction text as [|c rest IH]; intros cur; simpl.
  - now rewrite concat_strings_emit, append_nil_r.
  - destruct (word_char c).
    + rewrite IH, append_assoc. reflexivity.
    + rewrite concat_strings_app, concat_strings_emit, IH. reflexivity.
Qed.

(** X1. The tokens of a text, put end to end, are exactly the letters and
    digits of the text in their order: no word character is lost, none is
    invented, none changes place. *)
Theorem tokenize_text_keeps_word_chars (text : string) :
  concat_strings (_tokenize_text text) = word_chars_of text.
Proof. unfold _tokenize_text. now rewrite WORD_RE_finditer_concat. Qed.

Lemma WORD_RE_finditer_split (a b cur : string) (d : ascii) :
  word_char d = false ->
  WORD_RE_finditer cur (a +:+ String d b) =
  WORD_RE_finditer cur a ++ WORD_RE_finditer EmptyString b.
Proof.
  intros Hd. revert cur. induction a as [|c a IH]; intros cur.
  - rewrite append_nil_l. simpl. now rewrite Hd.
  - rewrite append_cons. simpl. destruct (word_char c).
    + apply IH.
    + rewrite IH. now rewrite app_assoc.
Qed.

(** X2. A delimiter cuts the text for the tokenizer: the tokens of
    [a ++ d ++ b], with [d] a character that is no letter or digit, are the
    tokens of [a] followed by the tokens of [b]. *)
Theorem tokenize_text_split_at_delimiter (a b : string) (d : ascii) :
  word_char d = false ->
  _tokenize_text (a +:+ String d b) = _tokenize_text a ++ _tokenize_text b.
Proof. intros Hd. unfold _tokenize_text. now apply WORD_RE_finditer_split. Qed.

Lemma tokenize_text_split_at_delimiter_witness :
  word_char "!" = false /\
  _tokenize_text ("tok3n" +:+ String "!" "izer") =
  _tokenize_text "tok3n" ++ _tokenize_text "izer".
Proof.
  split; [reflexivity|].
  apply (tokenize_text_split_at_delimiter "tok3n" "izer" "!"). reflexivity.
Defined.

Lemma tokenize_text_after_line (line rest : string) :
  ends_in_delimiter line ->
  _tokenize_text (line +:+ rest) = _tokenize_text line ++ _tokenize_text rest.
Proof.
  intros (pre & d & -> & Hd). unfold _tokenize_text.
  rewrite append_assoc, append_cons, append_nil_l.
  rewrite (WORD_RE_finditer_split pre rest EmptyString d Hd).
  rewrite (WORD_RE_finditer_split pre EmptyString EmptyString d Hd).
  now rewrite app_nil_r.
Qed.

(** X3. Reading a file line by line gives the tokens of the whole text:
    when every line but the last ends in a delimiter (its newline),
    [tokenize] of the lines is [_tokenize_text] of their concatenation. *)
Theorem tokenize_lines_as_whole_text (fh : list string) (last : string) :
  Forall ends_in_delimiter fh ->
  tokenize (fh ++ [last]) = _tokenize_text (concat_strings fh +:+ last).
Proof.
  unfold tokenize. induction 1 as [|line fh Hline _ IH].
  - simpl. now rewrite app_nil_r.
  - change (_tokenize_text line ++ flat_map _tokenize_text (fh ++ [last]) =
            _tokenize_text ((line +:+ concat_strings fh) +:+ last)).
    rewrite IH, append_assoc. symmetry. now apply tokenize_text_after_line.
Qed.

Lemma tokenize_lines_as_whole_text_witness :
  Forall ends_in_delimiter ["This is A" +:+ String newline ""; String newline ""] /\
  tokenize (["This is A" +:+ String newline ""; String newline ""] ++ ["the!"]) =
  _tokenize_text
    (concat_strings ["This is A" +:+ String newline ""; String newline ""] +:+ "the!").
Proof.
  assert (H : Forall ends_in_delimiter
                ["This is A" +:+ String newline ""; String newline ""]).
  { repeat constructor.
    - exists "This is A", newline. split; reflexivity.
    - exists EmptyString, newline. split; reflexivity. }
  split; [exact H | exact (tokenize_lines_as_whole_text _ "the!" H)].
Defined.

Lemma word_chars_of_empty_no_tokens (text cur : string) :
  word_chars_of text = EmptyString ->
  WORD_RE_finditer cur text = emit cur.
Proof.
  revert cur. induction text as [|c rest IH]; intros cur; simpl; [reflexivity|].
  destruct (word_char c); [discriminate|].
  intros H. rewrite (IH EmptyString H). simpl. apply app_nil_r.
Qed.

(** X4. A text yields no token exactly when it holds no letter or digit;
    the empty text is one such. *)
Theorem tokenize_text_nil_iff (text : string) :
  _tokenize_text text = [] <-> word_chars_of text = EmptyString.
Proof.
  split.
  - intros H. unfold _tokenize_text in H.
    pose proof (WORD_RE_finditer_concat text EmptyString) as Hcat.
    rewrite H in Hcat. symmetry. exact Hcat.
  - intros H. unfold _tokenize_text.
    now rewrite word_chars_of_empty_no_tokens.
Qed.

End TokenizerMore.

(** ** More on histograms *)

Module HistogramMore.
Import Merge.

Lemma getitem_default_iadd_item (d : gmap string Z) (word k : string) (count : Z) :
  getitem_default (iadd_item d word count) k =
  if decide (word = k) then getitem_default d k + count else getitem_default d k.
Proof.
  unfold getitem_default at 1. rewrite lookup_iadd_item.
  now destruct (decide (word = k)).
Qed.

Lemma count_word_cons (k w : string) (ws : list string) :
  count_word k (w :: ws) =
  (if decide (lower w = k) then 1 else 0) + count_word k ws.
Proof.
  unfold count_word, len. rewrite filter_cons.
  destruct (decide (lower w = k)); simpl; lia.
Qed.

Lemma count_word_nonneg (k : string) (ws : list string) : 0 <= count_word k ws.
Proof. unfold count_word, len. lia. Qed.

Lemma foldl_add_counts (ws : list string) (h : Histogram) (k : string) :
  getitem_default (_words (foldl add h ws)) k =
    getitem_default (_words h) k + count_word k ws /\
  total_words (foldl add h ws) = total_words h + len ws /\
  (is_Some (_words (foldl add h ws) !! k) <->
   is_Some (_words h !! k) \/ 0 < count_word k ws).
Proof.
  revert h. induction ws as [|w ws IH]; intros h.
  - simpl. unfold count_word, len. simpl.
    split; [lia|]. split; [lia|]. split; [tauto | intros [H|H]; [exact H | lia]].
  - destruct (IH (add h w)) as (Hcount & Htotal & Hkey).
    change (foldl add h (w :: ws)) with (foldl add (add h w) ws).
    rewrite Hcount, Htotal, Hkey, count_word_cons.
    pose proof (count_word_nonneg k ws) as Hnn.
    unfold add, total_words, len. simpl _words. simpl _total.
    rewrite getitem_default_iadd_item, lookup_iadd_item.
    destruct (decide (lower w = k)) as [Heq|Hne].
    + split; [lia|]. split; [simpl; lia|].
      split; [intros _; right; lia | intros _; left; eauto].
    + split; [lia|]. split; [simpl; lia|].
      split; (intros [H|H]; [left; exact H | right; lia]).
Qed.

(** X5. Adding the words [ws] one by one raises the total by their number
    and the count of every key by the number of words that fold to it; a key
    is stored afterwards exactly when it was stored before or one of the
    words folds to it. *)
Theorem add_words_counts (ws : list string) (h : Histogram) (k : string) :
  getitem_default (_words (foldl add h ws)) k =
    getitem_default (_words h) k + count_word k ws /\
  total_words (foldl add h ws) = total_words h + len ws /\
  (is_Some (_words (foldl add h ws) !! k) <->
   is_Some (_words h !! k) \/ 0 < count_word k ws).
Proof.
  destruct (foldl_add_counts ws h k) as (Hcount & Htotal & Hkey).
  split; [exact Hcount | split; [exact Htotal | exact Hkey]].
Qed.

Lemma lower_char_idempotent (c : ascii) : lower_char (lower_char c) = lower_char c.
Proof. destruct c as [[] [] [] [] [] [] [] []]; vm_compute; reflexivity. Qed.

Lemma lower_idempotent (s : string) : lower (lower s) = lower s.
Proof.
  induction s as [|c s IH]; simpl; [reflexivity|].
  now rewrite lower_char_idempotent, IH.
Qed.

(** X6. [add] does not see the case of its argument: a word and its
    lowercase form leave the same histogram, whatever the histogram was. *)
Theorem add_ignores_case (h : Histogram) (word : string) :
  add h (lower word) = add h word.
Proof. unfold add. now rewrite lower_idempotent. Qed.

(** X7. The sum of two histograms counts every word as often as the two
    together (a word missing from one counts 0 there), stores the words of
    either, and has the two totals added. *)
Theorem add_counts_pointwise (a b : Histogram) :
  exists ab,
    binary_add a (VHistogram b) = Ok ab /\
    total_words ab = total_words a + total_words b /\
    forall k,
      getitem_default (_words ab) k =
        getitem_default (_words a) k + getitem_default (_words b) k /\
      (is_Some (_words ab !! k) <->
       is_Some (_words a !! k) \/ is_Some (_words b !! k)).
Proof.
  exists (plus a b). split; [apply binary_add_histogram|].
  split; [reflexivity|]. intros k. unfold plus. simpl _words.
  unfold getitem_default at 1. rewrite lookup_iadd_words.
  unfold getitem_default, _zero.
  destruct (_words a !! k) as [x|], (_words b !! k) as [y|]; simpl;
    (split; [lia|]); split; try (intros [H|H]); eauto;
    try (intros H; destruct H as [z Hz]; discriminate).
Qed.

(** X8. The empty histogram is neutral for [+] on both sides and for
    [+=]. *)
Theorem add_empty_neutral (h : Histogram) :
  binary_add h (VHistogram __init__) = Ok h /\
  binary_add __init__ (VHistogram h) = Ok h /\
  inplace_add h (VHistogram __init__) = (h, Ok h).
Proof.
  assert (Hr : plus h __init__ = h).
  { destruct h as [words total]. unfold plus. simpl.
    rewrite Z.add_0_r, iadd_words_comm. f_equal. apply iadd_words_empty_l. }
  assert (Hl : plus __init__ h = h).
  { destruct h as [words total]. unfold plus. simpl. f_equal.
    apply iadd_words_empty_l. }
  rewrite !binary_add_histogram, Hr, Hl.
  split; [reflexivity|]. split; [reflexivity|].
  change (inplace_add h (VHistogram __init__))
    with (plus h __init__, Ok (plus h __init__)).
  now rewrite Hr.
Qed.

(** X9. [a += b] leaves in [a] the histogram that [a + b] returns. *)
Theorem inplace_add_agrees_with_add (a b : Histogram) :
  exists ab,
    binary_add a (VHistogram b) = Ok ab /\
    inplace_add a (VHistogram b) = (ab, Ok ab).
Proof.
  exists (plus a b). split; [apply binary_add_histogram | reflexivity].
Qed.

(** *** Counts stay positive *)

Lemma positive_counts_init : positive_counts __init__.
Proof. intros word count H. simpl in H. now rewrite lookup_empty in H. Qed.

Lemma positive_counts_add (h : Histogram) (word : string) :
  positive_counts h -> positive_counts (add h word).
Proof.
  intros Hpos k count. unfold add. simpl. rewrite lookup_iadd_item.
  destruct (decide (lower word = k)) as [<-|_]; [|apply Hpos].
  intros [= <-]. unfold getitem_default, _zero.
  destruct (_words h !! lower word) as [c|] eqn:Hc; simpl; [|lia].
  specialize (Hpos _ _ Hc). lia.
Qed.

Lemma positive_counts_plus (a b : Histogram) :
  positive_counts a -> positive_counts b -> positive_counts (plus a b).
Proof.
  intros Ha Hb k count. unfold plus. simpl. rewrite lookup_iadd_words.
  unfold getitem_default, _zero.
  destruct (_words b !! k) as [y|] eqn:Hy; [|apply Ha].
  intros [= <-]. specialize (Hb _ _ Hy).
  destruct (_words a !! k) as [x|] eqn:Hx; simpl; [|lia].
  specialize (Ha _ _ Hx). lia.
Qed.

Lemma sum_at_least_length (l : list (string * Z)) :
  Forall (fun kv => 1 <= snd kv) l ->
  Z.of_nat (length l) <= foldr Z.add 0 (l.*2).
Proof.
  induction 1 as [|[k v] l Hv _ IH]; [simpl; lia|].
  rewrite fmap_cons. simpl in *. lia.
Qed.

Lemma distinct_le_total (h : Histogram) :
  invariant h -> positive_counts h -> distinct_words h <= total_words h.
Proof.
  intros [Hsum _] Hpos. unfold distinct_words, total_words.
  rewrite Hsum, counts_sum_values, <- length_map_to_list.
  apply sum_at_least_length. apply Forall_forall. intros [k v] Hkv.
  apply elem_of_map_to_list in Hkv. simpl. now apply (Hpos k).
Qed.

(** X10. Histograms that hold only positive counts stay so under [add]
    and [+]; in such a histogram that keeps the invariant there are never
    more distinct words than words in total. *)
Theorem positive_counts_preserved :
  positive_counts __init__ /\
  (forall h word, positive_counts h -> positive_counts (add h word)) /\
  (forall a b, positive_counts a -> positive_counts b ->
     exists ab, binary_add a (VHistogram b) = Ok ab /\ positive_counts ab) /\
  (forall h, invariant h -> positive_counts h ->
     distinct_words h <= total_words h).
Proof.
  split; [apply positive_counts_init|].
  split; [apply positive_counts_add|].
  split; [|apply distinct_le_total].
  intros a b Ha Hb. exists (plus a b).
  split; [apply binary_add_histogram | now apply positive_counts_plus].
Qed.

Lemma positive_counts_preserved_witness :
  positive_counts (add __init__ "Spam") /\
  distinct_words (add __init__ "Spam") <= total_words (add __init__ "Spam").
Proof.
  destruct positive_counts_preserved as (H0 & Hadd & _ & Hle).
  pose proof (Hadd __init__ "Spam" H0) as H1.
  split; [exact H1 | apply Hle; [apply invariant_add, invariant_init | exact H1]].
Defined.

End HistogramMore.

(** ** More on [top_words] *)

Module RankingMore.
Import Ranking.

(** X11. [top_words] raises [IndexError] exactly when
    [count <= -distinct_words]; for every larger [count] it returns a list. *)
Theorem top_words_raises_iff (h : Histogram) (count : Z) :
  (top_words h count = Raise IndexError <-> count <= - distinct_words h) /\
  ((exists l, top_words h count = Ok l) <-> - distinct_words h < count).
Proof.
  destruct (Z.le_gt_cases count (- distinct_words h)) as [Hle|Hgt].
  - pose proof (top_words_raises h count Hle) as Hr. rewrite Hr.
    split; split; try tauto; try lia. intros [l Hl]. discriminate.
  - destruct (top_words_returns h count) as [l Hl]; [lia|]. rewrite Hl.
    split; split; try lia; try discriminate; eauto.
Qed.

Lemma sorted_items_lookup (h : Histogram) (w : string) (c : Z) :
  (w, c) ∈ sorted_reverse (map_to_list (_words h)) <-> _words h !! w = Some c.
Proof. now rewrite sorted_reverse_perm, elem_of_map_to_list. Qed.

Lemma sorted_items_NoDup (h : Histogram) :
  NoDup ((sorted_reverse (map_to_list (_words h))).*1).
Proof. rewrite sorted_reverse_perm. apply NoDup_fst_map_to_list. Qed.

(** X12. Every entry [top_words] returns is an entry of the histogram,
    with the count stored for its word, and no word is returned twice. *)
Theorem top_words_entries (h : Histogram) (count : Z) (l : list item) :
  top_words h count = Ok l ->
  (forall w c, (w, c) ∈ l -> _words h !! w = Some c) /\ NoDup (l.*1).
Proof.
  intros H. apply top_words_prefix in H as [n ->]. split.
  - intros w c Hin. apply sorted_items_lookup.
    apply elem_of_take in Hin as (i & Hi & _). apply list_elem_of_lookup. eauto.
  - rewrite fmap_take.
    eapply sublist_NoDup; [apply sorted_items_NoDup | apply sublist_take].
Qed.

Lemma top_words_entries_witness :
  top_words words_tie 3 =
    Ok [("word1", 50); ("word4", 40); ("word3", 40); ("word2", 40)] /\
  (forall w c, (w, c) ∈ [("word1", 50); ("word4", 40); ("word3", 40); ("word2", 40)] ->
               _words words_tie !! w = Some c) /\
  NoDup ([("word1", 50); ("word4", 40); ("word3", 40); ("word2", 40)].*1).
Proof.
  assert (H : top_words words_tie 3 =
              Ok [("word1", 50); ("word4", 40); ("word3", 40); ("word2", 40)])
    by (vm_compute; reflexivity).
  split; [exact H | exact (top_words_entries _ _ _ H)].
Defined.

Lemma len_sorted_items (h : Histogram) :
  len (sorted_reverse (map_to_list (_words h))) = distinct_words h.
Proof.
  unfold len, distinct_words. rewrite sorted_reverse_perm. f_equal.
  apply length_map_to_list.
Qed.

(** X13. Asked for more words than there are, [top_words] returns all of
    them. *)
Theorem top_words_shortfall (h : Histogram) (count : Z) :
  distinct_words h < count ->
  exists l, top_words h count = Ok l /\ l ≡ₚ map_to_list (_words h) /\
            len l = distinct_words h.
Proof.
  intros Hlt. exists (sorted_reverse (map_to_list (_words h))).
  split; [|split; [apply sorted_reverse_perm | apply len_sorted_items]].
  unfold top_words. rewrite len_sorted_items.
  destruct (Z.ltb_spec (distinct_words h) count); [reflexivity | lia].
Qed.

Lemma top_words_shortfall_witness :
  distinct_words words_tie < 10 /\
  exists l, top_words words_tie 10 = Ok l /\ l ≡ₚ map_to_list (_words words_tie) /\
            len l = distinct_words words_tie.
Proof.
  assert (H : distinct_words words_tie < 10) by (vm_compute; reflexivity).
  split; [exact H | exact (top_words_shortfall words_tie 10 H)].
Defined.

(** *** The tie loop, from a position inside the list *)

Lemma getitem_lookup {A : Type} (l : list A) (i : Z) :
  0 <= i ->
  getitem l i = match l !! Z.to_nat i with
                | Some x => Ok x
                | None => Raise IndexError
                end.
Proof.
  intros Hi. unfold getitem.
  destruct (Z.ltb_spec i 0); [lia|]. destruct (Z.ltb_spec i 0); [lia|].
  destruct (Z.leb_spec (len l) i) as [Hge|Hlt]; simpl; [|reflexivity].
  rewrite (proj2 (lookup_ge_None l (Z.to_nat i))); [reflexivity|].
  unfold len in Hge. lia.
Qed.

Lemma extend_ties_spec (fuel : nat) (word_list : list item) (last_count count : Z) :
  0 <= count <= len word_list ->
  fuel = Z.to_nat (len word_list - count) ->
  exists count',
    extend_ties fuel word_list last_count count = Ok count' /\
    count <= count' <= len word_list /\
    (forall (i : nat) x, count <= Z.of_nat i < count' ->
                         word_list !! i = Some x -> snd x = last_count) /\
    (count' = len word_list \/
     exists x, word_list !! Z.to_nat count' = Some x /\ snd x <> last_count).
Proof.
  revert count. induction fuel as [|fuel IH]; intros count Hc Hfuel; simpl.
  - exists count. split; [reflexivity|]. split; [lia|].
    split; [intros; lia | left; lia].
  - destruct (Z.ltb_spec count (len word_list)) as [Hlt|Hge]; [|lia].
    rewrite getitem_lookup by lia.
    destruct (lookup_lt_is_Some_2 word_list (Z.to_nat count)) as [x Hx];
      [unfold len in Hlt; lia|].
    rewrite Hx. simpl.
    destruct (Z.eqb_spec (snd x) last_count) as [Heq|Hne].
    + destruct (IH (count + 1)) as (c & Hrun & Hle & Hties & Hexit); [lia | lia |].
      exists c. split; [exact Hrun|]. split; [lia|]. split; [|exact Hexit].
      intros i y Hi Hy.
      destruct (Z.eq_dec (Z.of_nat i) count) as [Hic|Hic].
      * replace (Z.to_nat count) with i in Hx by lia.
        pose proof (eq_trans (eq_sym Hx) Hy) as Hxy.
        injection Hxy as <-. exact Heq.
      * apply (Hties i y); [lia | exact Hy].
    + exists count. split; [reflexivity|]. split; [lia|].
      split; [intros; lia | right; eauto].
Qed.

Lemma sorted_counts_descend (l : list item) (i j : nat) (x y : item) :
  StronglySorted code_order l ->
  l !! i = Some x -> l !! j = Some y -> (i <= j)%nat -> snd y <= snd x.
Proof.
  intros Hs Hx Hy Hij.
  destruct (decide (i = j)) as [->|Hne].
  { pose proof (eq_trans (eq_sym Hx) Hy) as Hxy. injection Hxy as <-. lia. }
  rewrite <- (take_drop j l) in Hs.
  assert (Hin : x ∈ take j l) by (apply elem_of_take; exists i; split; [exact Hx | lia]).
  assert (Hout : y ∈ drop j l).
  { apply list_elem_of_lookup. exists 0%nat. rewrite lookup_drop.
    now rewrite Nat.add_0_r. }
  destruct (StronglySorted_app_1_elem_of _ _ _ _ _ Hs Hin Hout) as [H|[H _]]; lia.
Qed.

(** What [top_words] does for [0 <= count <= len(word_list)], given the
    entry [word_list[count - 1]] that it reads. *)
Lemma top_words_inside (h : Histogram) (count : Z) (last : item) :
  let word_list := sorted_reverse (map_to_list (_words h)) in
  0 <= count <= len word_list ->
  getitem word_list (count - 1) = Ok last ->
  exists count',
    top_words h count = Ok (take (Z.to_nat count') word_list) /\
    count <= count' <= len word_list /\
    (forall (i : nat) x, count <= Z.of_nat i < count' ->
                         word_list !! i = Some x -> snd x = snd last) /\
    (count' = len word_list \/
     exists x, word_list !! Z.to_nat count' = Some x /\ snd x <> snd last).
Proof.
  intros word_list Hc Hlast. unfold top_words. fold word_list.
  destruct (Z.ltb_spec (len word_list) count); [lia|].
  rewrite Hlast. simpl.
  destruct (extend_ties_spec (Z.to_nat (len word_list - count)) word_list
              (snd last) count Hc eq_refl) as (c & -> & Hle & Hties & Hexit).
  simpl. exists c. split; [|auto].
  unfold slice_to. destruct (Z.ltb_spec c 0); [lia|].
  now rewrite Z.min_l by lia.
Qed.

(** X14. For [1 <= count <= distinct_words], [top_words] cuts the sorted
    list in two: it returns at least [count] entries, every entry from the
    [count]-th on has the count of the [count]-th, and every entry left out
    has a smaller count than every entry returned. *)
Theorem top_words_cut (h : Histogram) (count : Z) :
  1 <= count <= distinct_words h ->
  exists l rest boundary,
    top_words h count = Ok l /\
    sorted_reverse (map_to_list (_words h)) = l ++ rest /\
    count <= len l /\
    l !! Z.to_nat (count - 1) = Some boundary /\
    (forall (i : nat) x, count - 1 <= Z.of_nat i -> l !! i = Some x ->
                         snd x = snd boundary) /\
    (forall x y, x ∈ l -> y ∈ rest -> snd y < snd x).
Proof.
  intros Hc. rewrite <- len_sorted_items in Hc.
  set (wl := sorted_reverse (map_to_list (_words h))) in *.
  assert (Hs : StronglySorted code_order wl) by apply sorted_reverse_sorted.
  destruct (lookup_lt_is_Some_2 wl (Z.to_nat (count - 1))) as [last Hl];
    [unfold len in Hc; lia|].
  assert (Hlast : getitem wl (count - 1) = Ok last)
    by (rewrite getitem_lookup by lia; now rewrite Hl).
  destruct (top_words_inside h count last) as (c & Htop & Hle & Hties & Hexit);
    [fold wl; lia | exact Hlast |]. fold wl in Htop, Hle, Hties, Hexit.
  assert (Hlen : length (take (Z.to_nat c) wl) = Z.to_nat c)
    by (apply length_take_le; unfold len in Hle; lia).
  assert (Hin : forall (i : nat) x, (i < Z.to_nat c)%nat -> wl !! i = Some x ->
                                    snd last <= snd x).
  { intros i x Hi Hx.
    destruct (Z.le_gt_cases count (Z.of_nat i)) as [Hge|Hlt].
    - rewrite (Hties i x); [lia | lia | exact Hx].
    - apply (sorted_counts_descend wl i (Z.to_nat (count - 1)) x last Hs Hx Hl). lia. }
  exists (take (Z.to_nat c) wl), (drop (Z.to_nat c) wl), last.
  split; [exact Htop|]. split; [now rewrite take_drop|].
  split; [unfold len; lia|].
  split; [rewrite lookup_take_lt by lia; exact Hl|]. split.
  - intros i x Hi Hx.
    assert (Hic : (i < Z.to_nat c)%nat).
    { pose proof (lookup_lt_Some _ _ _ Hx) as Hlt.
      rewrite length_take in Hlt. lia. }
    rewrite lookup_take_lt in Hx by exact Hic.
    destruct (Z.eq_dec (Z.of_nat i) (count - 1)) as [Heq|Hne].
    + replace (Z.to_nat (count - 1)) with i in Hl by lia.
      pose proof (eq_trans (eq_sym Hl) Hx) as Hxy. now injection Hxy as <-.
    + apply (Hties i x); [lia | exact Hx].
  - intros x y Hx Hy.
    apply elem_of_take in Hx as (i & Hx & Hi).
    apply list_elem_of_lookup in Hy as [j Hy]. rewrite lookup_drop in Hy.
    pose proof (Hin i x Hi Hx) as Hxl.
    destruct Hexit as [Hend | (z & Hz & Hne)].
    + apply lookup_lt_Some in Hy. unfold len, item in *. lia.
    + pose proof (sorted_counts_descend wl _ _ last z Hs Hl Hz ltac:(lia)) as Hzl.
      pose proof (sorted_counts_descend wl _ _ z y Hs Hz Hy ltac:(lia)) as Hyz.
      lia.
Qed.

Lemma top_words_cut_witness :
  1 <= 3 <= distinct_words words_tie /\
  exists l rest boundary,
    top_words words_tie 3 = Ok l /\
    sorted_reverse (map_to_list (_words words_tie)) = l ++ rest /\
    3 <= len l /\
    l !! Z.to_nat (3 - 1) = Some boundary /\
    (forall (i : nat) x, 3 - 1 <= Z.of_nat i -> l !! i = Some x ->
                         snd x = snd boundary) /\
    (forall x y, x ∈ l -> y ∈ rest -> snd y < snd x).
Proof.
  assert (H : 1 <= 3 <= distinct_words words_tie) by (vm_compute; split; discriminate).
  split; [exact H | exact (top_words_cut words_tie 3 H)].
Defined.

End RankingMore.

(** ** [top_words] at [count = 0] *)

Module RankingEdge.
Import Ranking RankingMore.

Lemma getitem_minus_one {A : Type} (l : list A) :
  l <> [] ->
  exists x, getitem l (-1) = Ok x /\ l !! (length l - 1)%nat = Some x.
Proof.
  intros Hne.
  assert (Hlen : (0 < length l)%nat) by (destruct l; [congruence | simpl; lia]).
  destruct (lookup_lt_is_Some_2 l (length l - 1)%nat) as [x Hx]; [lia|].
  exists x. split; [|exact Hx]. unfold getitem, len.
  destruct (Z.ltb_spec (-1) 0); [|lia].
  destruct (Z.ltb_spec (-1 + Z.of_nat (length l)) 0); [lia|].
  destruct (Z.leb_spec (Z.of_nat (length l)) (-1 + Z.of_nat (length l))); [lia|].
  simpl. replace (Z.to_nat (-1 + Z.of_nat (length l))) with (length l - 1)%nat by lia.
  now rewrite Hx.
Qed.

(** X15. On a histogram that is not empty, [top_words(0)] reads the count
    of the last entry and extends from position 0: it returns nothing when
    two words differ in count, and every word when all words have the same
    count. *)
Theorem top_words_zero (h : Histogram) :
  0 < distinct_words h ->
  (all_tied h ->
   exists l, top_words h 0 = Ok l /\ l ≡ₚ map_to_list (_words h)) /\
  (~ all_tied h -> top_words h 0 = Ok []).
Proof.
  intros Hd. rewrite <- len_sorted_items in Hd.
  set (wl := sorted_reverse (map_to_list (_words h))) in *.
  assert (Hs : StronglySorted code_order wl) by apply sorted_reverse_sorted.
  assert (Hne : wl <> []) by (intros E; rewrite E in Hd; unfold len in Hd; simpl in Hd; lia).
  destruct (getitem_minus_one wl Hne) as (last & Hget & Hlast).
  destruct (top_words_inside h 0 last) as (c & Htop & Hle & Hties & Hexit);
    [fold wl; lia | exact Hget |]. fold wl in Htop, Hle, Hties, Hexit.
  assert (Hentry : forall (i : nat) x, wl !! i = Some x ->
                     _words h !! fst x = Some (snd x)).
  { intros i [w n] Hx. apply sorted_items_lookup. fold wl.
    apply list_elem_of_lookup. eauto. }
  split.
  - intros Htied. exists wl. split; [|apply sorted_reverse_perm].
    destruct Hexit as [-> | (x & Hx & Hdiff)].
    + rewrite Htop. f_equal. apply take_ge. unfold len. lia.
    + destruct Hdiff.
      exact (Htied _ _ _ _ (Hentry _ _ Hx) (Hentry _ _ Hlast)).
  - intros Hnot. destruct (Z.eq_dec c 0) as [-> | Hc0]; [exact Htop|].
    destruct Hnot. intros w1 c1 w2 c2 H1 H2.
    destruct (lookup_lt_is_Some_2 wl 0%nat) as [first Hfirst];
      [unfold len in Hd; lia|].
    assert (Hfl : snd first = snd last)
      by (apply (Hties 0%nat first); [lia | exact Hfirst]).
    assert (Hall : forall w n, _words h !! w = Some n -> n = snd last).
    { intros w n Hw. apply sorted_items_lookup in Hw. fold wl in Hw.
      apply list_elem_of_lookup in Hw as [i Hi].
      pose proof (lookup_lt_Some _ _ _ Hi) as Hilt.
      pose proof (sorted_counts_descend wl 0%nat i first (w, n) Hs Hfirst Hi
                    ltac:(lia)) as Hup.
      pose proof (sorted_counts_descend wl i (length wl - 1)%nat (w, n) last Hs Hi
                    Hlast ltac:(unfold item in *; lia)) as Hdown.
      simpl in Hup, Hdown. lia. }
    rewrite (Hall _ _ H1), (Hall _ _ H2). reflexivity.
Qed.

Lemma top_words_zero_witness :
  0 < distinct_words words_spam /\
  (all_tied words_spam ->
   exists l, top_words words_spam 0 = Ok l /\ l ≡ₚ map_to_list (_words words_spam)) /\
  (~ all_tied words_spam -> top_words words_spam 0 = Ok []).
Proof.
  assert (H : 0 < distinct_words words_spam) by (vm_compute; reflexivity).
  split; [exact H | exact (top_words_zero words_spam H)].
Defined.

End RankingEdge.

(** ** More on [histogram_from_file] and [main] *)

Module MainMore.
Import Tokenizer TokenizerFacts Merge HistogramMore Ranking MainFacts.

(** *** One source *)

Lemma invariant_foldl_add (ws : list string) (h : Histogram) :
  invariant h -> invariant (foldl add h ws).
Proof.
  revert h. induction ws as [|w ws IH]; intros h Hh; [exact Hh|].
  simpl. apply IH. now apply invariant_add.
Qed.

Lemma positive_counts_foldl_add (ws : list string) (h : Histogram) :
  positive_counts h -> positive_counts (foldl add h ws).
Proof.
  revert h. induction ws as [|w ws IH]; intros h Hh; [exact Hh|].
  simpl. apply IH. now apply positive_counts_add.
Qed.

Lemma count_word_positive (k : string) (ws : list string) :
  0 < count_word k ws -> exists w, w ∈ ws /\ lower w = k.
Proof.
  unfold count_word, len. intros H.
  destruct (filter (fun w => lower w = k) ws) as [|w l] eqn:Hf; [simpl in H; lia|].
  assert (Hin : w ∈ filter (fun w => lower w = k) ws) by (rewrite Hf; left).
  apply list_elem_of_filter in Hin as [Hk Hin]. eauto.
Qed.

Lemma lower_char_key_char (c : ascii) :
  word_char c = true -> key_char (lower_char c) = true.
Proof. destruct c as [[] [] [] [] [] [] [] []]; vm_compute; auto. Qed.

Lemma lower_key_chars (s : string) :
  all_word_chars s -> all_key_chars (lower s).
Proof.
  induction s as [|c s IH]; simpl; [auto|].
  intros [Hc Hs]. split; [now apply lower_char_key_char | now apply IH].
Qed.

Lemma lower_nonempty (s : string) : s <> EmptyString -> lower s <> EmptyString.
Proof. destruct s; [congruence | discriminate]. Qed.

Lemma tokenize_tokens (fh : list string) (tok : string) :
  tok ∈ tokenize fh -> tok <> EmptyString /\ all_word_chars tok.
Proof.
  unfold tokenize. intros Hin. apply list_elem_of_In in Hin.
  apply in_flat_map in Hin as (line & _ & Hin). apply list_elem_of_In in Hin.
  apply WORD_RE_finditer_runs in Hin as (Hne & Hall & _); [auto | exact I].
Qed.

(** X16. For a source that can be read, [histogram_from_file] reads it
    once and returns a histogram whose total is the number of tokens of
    the source, in which every key counts the tokens that fold to it, every
    key is a nonempty string of small letters and digits, and the invariant
    holds with all counts positive. *)
Theorem histogram_from_file_result (w : world) (fname : option string)
    (fh : list string) :
  source_lines w fname = Some fh ->
  exists h,
    histogram_from_file w fname = ([source_event fname], Ok h) /\
    total_words h = len (tokenize fh) /\
    (forall k, getitem_default (_words h) k = count_word k (tokenize fh)) /\
    (forall k, is_Some (_words h !! k) -> k <> EmptyString /\ all_key_chars k) /\
    invariant h /\ positive_counts h.
Proof.
  intros Hsrc. exists (add_all __init__ fh). split.
  - destruct fname as [fname|]; simpl in *.
    + now rewrite Hsrc.
    + now injection Hsrc as ->.
  - unfold add_all.
    split; [|split; [|split; [|split]]].
    + destruct (foldl_add_counts (tokenize fh) __init__ EmptyString) as (_ & -> & _).
      unfold total_words. simpl. lia.
    + intros k.
      destruct (foldl_add_counts (tokenize fh) __init__ k) as (-> & _ & _).
      unfold getitem_default. simpl. now rewrite lookup_empty.
    + intros k Hk.
      destruct (foldl_add_counts (tokenize fh) __init__ k) as (_ & _ & Hkey).
      apply Hkey in Hk as [[v Hv] | Hpos]; [simpl in Hv; now rewrite lookup_empty in Hv|].
      apply count_word_positive in Hpos as (tok & Hin & <-).
      apply tokenize_tokens in Hin as [Hne Hall].
      split; [now apply lower_nonempty | now apply lower_key_chars].
    + apply invariant_foldl_add, invariant_init.
    + apply positive_counts_foldl_add, positive_counts_init.
Qed.

Lemma histogram_from_file_result_witness :
  source_lines w_ex (Some "a.txt") = Some ["Hello world"; "hello!"] /\
  exists h,
    histogram_from_file w_ex (Some "a.txt") = ([source_event (Some "a.txt")], Ok h) /\
    total_words h = len (tokenize ["Hello world"; "hello!"]) /\
    (forall k, getitem_default (_words h) k =
               count_word k (tokenize ["Hello world"; "hello!"])) /\
    (forall k, is_Some (_words h !! k) -> k <> EmptyString /\ all_key_chars k) /\
    invariant h /\ positive_counts h.
Proof.
  split; [reflexivity|].
  apply (histogram_from_file_result w_ex (Some "a.txt")). reflexivity.
Defined.

(** *** What [main] collects *)

Lemma source_hist_lines (w : world) (fname : option string) :
  source_hist w fname = add_all __init__ <$> source_lines w fname.
Proof. now destruct fname. Qed.




(** How [main] ends its first part, whatever the pool does: the outcome
    depends on the checks and on the sources only. *)
Lemma snd_main_final_result (w : world) (oracle : list (nat * nat))
    (files : list string) (workers : value) :
  snd (main_final_result w oracle files workers) =
  if 1 <? len (filter (fun f => f = "-") files) then Raise ValueError
  else match workers with
       | VNone => results ← collect w (sources files); sum_values results __init__
       | VInt n =>
           if n <? 0 then Raise ValueError
           else results ← collect (worker_world w) (sources files);
                sum_values results __init__
       | _ => Raise ValueError
       end.
Proof.
  unfold main_final_result. fold (sources files).
  destruct (1 <? len (filter (fun f => f = "-") files)); [reflexivity|].
  rewrite snd_bind.
  destruct workers as [h|s|n|]; try reflexivity.
  - destruct (n <? 0); [reflexivity|].
    destruct (n =? 0);
      repeat (rewrite snd_bind; cbn [emit_event mret io_ret snd]);
      rewrite pool_map_collect;
      now destruct (collect (worker_world w) (sources files)).
  - rewrite snd_serial_map. now destruct (collect w (sources files)).
Qed.


(** *** The report *)

Lemma print_words_lines (percentages : bool) (total : Z) (l : list item) :
  percentages = false \/ total <> 0 ->
  print_words percentages total l =
  (EvPrint <$> (word_line percentages total <$> l), Ok tt).
Proof.
  intros Hok. induction l as [|[word word_cnt] l IH]; [reflexivity|].
  cbn [print_words]. rewrite IH. unfold word_line. simpl fst. simpl snd.
  destruct percentages; [|reflexivity].
  destruct (Z.eqb_spec total 0) as [Hz|_]; [|reflexivity].
  destruct Hok; [discriminate | contradiction].
Qed.

Lemma nonempty_total (h : Histogram) (count : Z) (l : list item) :
  invariant h -> positive_counts h ->
  top_words h count = Ok l -> l <> [] -> total_words h <> 0.
Proof.
  intros Hi Hp Htop Hne.
  pose proof (distinct_le_total h Hi Hp) as Hle.
  apply top_words_prefix in Htop as [n ->].
  assert (Hd : distinct_words h <> 0); [|unfold distinct_words in *; lia].
  unfold distinct_words. intros Hz.
  assert (Hempty : _words h = ∅) by (apply map_size_empty_iff; lia).
  rewrite Hempty, map_to_list_empty in Hne. simpl in Hne.
  now rewrite take_nil in Hne.
Qed.

(** X17. On a histogram that keeps the invariant with positive counts, and
    for [count > -distinct_words], the report is printed whole and without
    an exception, in counts or in percentages: the total, the number of
    distinct words, a header with the number of entries of [top_words], and
    one line for each entry in order.  In particular the division by the
    total never divides by zero. *)
Theorem report_lines (h : Histogram) (count : Z) (percentages : bool) :
  invariant h -> positive_counts h -> - distinct_words h < count ->
  exists l,
    top_words h count = Ok l /\
    report h count percentages =
    (EvPrint <$> (LTotal (total_words h) :: LDistinct (distinct_words h) ::
                  LTop (len l) :: (word_line percentages (total_words h) <$> l)),
     Ok tt).
Proof.
  intros Hi Hp Hc. destruct (top_words_returns h count Hc) as [l Hl].
  exists l. split; [exact Hl|]. unfold report. rewrite Hl.
  assert (Hpw : print_words percentages (total_words h) l =
                (EvPrint <$> (word_line percentages (total_words h) <$> l), Ok tt)).
  { destruct l as [|x l]; [reflexivity|].
    apply print_words_lines. right.
    now apply (nonempty_total h count (x :: l) Hi Hp Hl). }
  cbn [emit_event lift mbind io_bind]. now rewrite Hpw.
Qed.

Lemma report_lines_witness :
  invariant (add __init__ "Spam") /\ positive_counts (add __init__ "Spam") /\
  - distinct_words (add __init__ "Spam") < 10 /\
  exists l,
    top_words (add __init__ "Spam") 10 = Ok l /\
    report (add __init__ "Spam") 10 true =
    (EvPrint <$> (LTotal (total_words (add __init__ "Spam")) ::
                  LDistinct (distinct_words (add __init__ "Spam")) ::
                  LTop (len l) ::
                  (word_line true (total_words (add __init__ "Spam")) <$> l)),
     Ok tt).
Proof.
  assert (Hi : invariant (add __init__ "Spam"))
    by apply invariant_add, invariant_init.
  assert (Hp : positive_counts (add __init__ "Spam"))
    by apply positive_counts_add, positive_counts_init.
  assert (Hc : - distinct_words (add __init__ "Spam") < 10)
    by (vm_compute; reflexivity).
  split; [exact Hi|]. split; [exact Hp|]. split; [exact Hc|].
  exact (report_lines (add __init__ "Spam") 10 true Hi Hp Hc).
Defined.

(** X18. For [count <= -distinct_words] the report stops half way: the
    total and the number of distinct words are printed, then [top_words]
    raises [IndexError] and nothing more is printed. *)
Theorem report_index_error (h : Histogram) (count : Z) (percentages : bool) :
  count <= - distinct_words h ->
  report h count percentages =
  ([EvPrint (LTotal (total_words h)); EvPrint (LDistinct (distinct_words h))],
   Raise IndexError).
Proof.
  intros Hc. unfold report. rewrite (top_words_raises h count Hc). reflexivity.
Qed.

Lemma report_index_error_witness :
  -1 <= - distinct_words (add __init__ "Spam") /\
  report (add __init__ "Spam") (-1) false =
  ([EvPrint (LTotal (total_words (add __init__ "Spam")));
    EvPrint (LDistinct (distinct_words (add __init__ "Spam")))],
   Raise IndexError).
Proof.
  assert (Hc : -1 <= - distinct_words (add __init__ "Spam"))
    by (vm_compute; discriminate).
  split; [exact Hc | exact (report_index_error _ (-1) false Hc)].
Defined.

(** *** [main] as a whole *)



(** X20. When the arguments are valid and one of the sources cannot be
    opened, [main] raises [IOError] and prints nothing, with or without
    workers. *)
Theorem main_io_error (w : world) (oracle : list (nat * nat)) (files : list string)
    (count : Z) (percentages : bool) (workers : value) :
  len (filter (fun f => f = "-") files) <= 1 ->
  valid_workers workers ->
  Exists (fun f => source_lines w f = None) (sources files) ->
  snd (main w oracle files count percentages workers) = Raise IOError /\
  printed (fst (main w oracle files count percentages workers)) = [].
Proof.
  intros Hdash Hw Hbad.
  assert (Hcollect : collect w (sources files) = Raise IOError).
  { apply collect_fail. eapply Exists_impl; [exact Hbad|].
    intros f Hf. simpl in Hf. rewrite source_hist_lines. now rewrite Hf. }
  assert (Hcollect' : collect (worker_world w) (sources files) = Raise IOError).
  { apply collect_fail. eapply Exists_impl; [exact Hbad|].
    intros f Hf. simpl in Hf. rewrite source_hist_lines.
    destruct f as [fname|]; [simpl in *; now rewrite Hf | discriminate]. }
  assert (Hfinal : snd (main_final_result w oracle files workers) = Raise IOError).
  { rewrite snd_main_final_result.
    destruct (Z.ltb_spec 1 (len (filter (fun f => f = "-") files))); [lia|].
    destruct Hw as [-> | (n & -> & Hn)].
    - now rewrite Hcollect.
    - destruct (Z.ltb_spec n 0); [lia|]. now rewrite Hcollect'. }
  unfold main. rewrite snd_bind, fst_bind, printed_app, Hfinal.
  now rewrite printed_main_final_result.
Qed.

Lemma main_io_error_witness :
  len (filter (fun f => f = "-") ["a.txt"; "c.txt"]) <= 1 /\
  valid_workers (VInt 2) /\
  Exists (fun f => source_lines w_ex f = None) (sources ["a.txt"; "c.txt"]) /\
  snd (main w_ex [] ["a.txt"; "c.txt"] 10 false (VInt 2)) = Raise IOError /\
  printed (fst (main w_ex [] ["a.txt"; "c.txt"] 10 false (VInt 2))) = [].
Proof.
  assert (H1 : len (filter (fun f => f = "-") ["a.txt"; "c.txt"]) <= 1)
    by (vm_compute; discriminate).
  assert (H2 : valid_workers (VInt 2))
    by (right; exists 2; split; [reflexivity | lia]).
  assert (H3 : Exists (fun f => source_lines w_ex f = None) (sources ["a.txt"; "c.txt"]))
    by (right; left; reflexivity).
  split; [exact H1|]. split; [exact H2|]. split; [exact H3|].
  exact (main_io_error w_ex [] ["a.txt"; "c.txt"] 10 false (VInt 2) H1 H2 H3).
Defined.

(** *** The serial run reads the sources in order *)

Lemma fst_serial_map_prefix (w : world) (files : list (option string)) :
  exists n, fst (serial_map w files) = source_event <$> take n files.
Proof.
  induction files as [|f files [n IH]]; [exists 0%nat; reflexivity|].
  cbn [serial_map]. rewrite fst_bind.
  assert (Hev : fst (histogram_from_file w f) = [source_event f]).
  { destruct f as [fname|]; simpl; [|reflexivity].
    now destruct (file_lines w fname). }
  rewrite Hev. destruct (snd (histogram_from_file w f)).
  - exists (S n). rewrite fst_bind, IH.
    destruct (snd (serial_map w files)); simpl; now rewrite app_nil_r.
  - exists 1%nat. simpl. rewrite ?take_0, ?app_nil_r. reflexivity.
Qed.

Lemma fst_serial_map_all (w : world) (files : list (option string)) :
  Forall (fun f => is_Some (source_lines w f)) files ->
  fst (serial_map w files) = source_event <$> files.
Proof.
  induction 1 as [|f files [fh Hf] _ IH]; [reflexivity|].
  cbn [serial_map]. rewrite fst_bind.
  assert (Hrun : histogram_from_file w f = ([source_event f], Ok (add_all __init__ fh))).
  { destruct f as [fname|]; simpl in *; [now rewrite Hf | now injection Hf as ->]. }
  rewrite Hrun. cbn [fst snd]. rewrite fst_bind, IH.
  destruct (snd (serial_map w files)); simpl; now rewrite app_nil_r.
Qed.

(** X21. Without workers, and with ["-"] given once at most, the first
    part of [main] does nothing but read the sources, one after the other
    in the order of [files] and each of them once at most: its events are
    the reads of a prefix of the sources, and of all of them when all can be
    read.  No pool is created and the number of CPUs is not asked for. *)
Theorem serial_reads_in_order (w : world) (oracle : list (nat * nat))
    (files : list string) :
  len (filter (fun f => f = "-") files) <= 1 ->
  (exists n, fst (main_final_result w oracle files VNone) =
             source_event <$> take n (sources files)) /\
  (Forall (fun f => is_Some (source_lines w f)) (sources files) ->
   fst (main_final_result w oracle files VNone) = source_event <$> sources files).
Proof.
  intros Hdash.
  assert (Hfst : fst (main_final_result w oracle files VNone) =
                 fst (serial_map w (sources files))).
  { unfold main_final_result. fold (sources files).
    destruct (Z.ltb_spec 1 (len (filter (fun f => f = "-") files))); [lia|].
    rewrite fst_bind.
    destruct (snd (serial_map w (sources files))); simpl; now rewrite app_nil_r. }
  rewrite Hfst. split; [apply fst_serial_map_prefix | apply fst_serial_map_all].
Qed.

Lemma serial_reads_in_order_witness :
  len (filter (fun f => f = "-") ["a.txt"; "-"; "b.txt"]) <= 1 /\
  (exists n, fst (main_final_result w_ex [] ["a.txt"; "-"; "b.txt"] VNone) =
             source_event <$> take n (sources ["a.txt"; "-"; "b.txt"])) /\
  (Forall (fun f => is_Some (source_lines w_ex f)) (sources ["a.txt"; "-"; "b.txt"]) ->
   fst (main_final_result w_ex [] ["a.txt"; "-"; "b.txt"] VNone) =
   source_event <$> sources ["a.txt"; "-"; "b.txt"]).
Proof.
  assert (H : len (filter (fun f => f = "-") ["a.txt"; "-"; "b.txt"]) <= 1)
    by (vm_compute; discriminate).
  split; [exact H | exact (serial_reads_in_order w_ex [] _ H)].
Defined.

End MainMore.

(** ** From the files to the final histogram *)

Module EndToEnd.
Import Tokenizer Merge HistogramMore Ranking MainFacts MainMore.

Lemma count_word_app (k : string) (a b : list string) :
  count_word k (a ++ b) = count_word k a + count_word k b.
Proof. unfold count_word, len. rewrite filter_app, length_app. lia. Qed.

Lemma getitem_default_plus (a b : Histogram) (k : string) :
  getitem_default (_words (plus a b)) k =
  getitem_default (_words a) k + getitem_default (_words b) k.
Proof.
  unfold plus. simpl _words. unfold getitem_default at 1.
  rewrite lookup_iadd_words. unfold getitem_default, _zero.
  destruct (_words a !! k), (_words b !! k); simpl; lia.
Qed.

(** The histogram of a source, whether it can be read or not. *)
Lemma hist_value_fmap (w : world) (srcs : list (option string)) :
  hist_value w <$> srcs =
  VHistogram <$> ((fun f => default __init__ (source_hist w f)) <$> srcs).
Proof. now rewrite <- list_fmap_compose. Qed.

Lemma readable_hist (w : world) (srcs : list (option string)) :
  Forall (fun f => is_Some (source_lines w f)) srcs ->
  Forall (fun f => is_Some (source_hist w f)) srcs.
Proof.
  intros H. eapply Forall_impl; [exact H|].
  intros f [fh Hf]. simpl. rewrite source_hist_lines, Hf. simpl. eauto.
Qed.

Lemma foldl_plus_counts (w : world) (srcs : list (option string)) (k : string) :
  Forall (fun f => is_Some (source_lines w f)) srcs ->
  forall start,
    getitem_default
      (_words (foldl plus start
                 ((fun f => default __init__ (source_hist w f)) <$> srcs))) k =
      getitem_default (_words start) k + count_word k (all_tokens w srcs) /\
    total_words (foldl plus start
                   ((fun f => default __init__ (source_hist w f)) <$> srcs)) =
      total_words start + len (all_tokens w srcs).
Proof.
  induction 1 as [|f srcs [fh Hf] _ IH]; intros start.
  - unfold count_word, len. simpl. lia.
  - assert (Hh : default __init__ (source_hist w f) = add_all __init__ fh)
      by (rewrite source_hist_lines, Hf; reflexivity).
    assert (Htok : all_tokens w (f :: srcs) = tokenize fh ++ all_tokens w srcs)
      by (unfold all_tokens; simpl; rewrite Hf; reflexivity).
    rewrite fmap_cons. cbn [foldl]. rewrite Hh, Htok.
    destruct (IH (plus start (add_all __init__ fh))) as [-> ->].
    rewrite getitem_default_plus, count_word_app.
    destruct (foldl_add_counts (tokenize fh) __init__ k) as (Hc & Ht & _).
    fold (add_all __init__ fh) in Hc, Ht.
    assert (H0 : getitem_default (_words __init__) k = 0)
      by (unfold getitem_default; simpl; now rewrite lookup_empty).
    rewrite Hc, H0. unfold total_words in *. cbn [plus _total]. rewrite Ht.
    unfold len. rewrite length_app. simpl. lia.
Qed.

Lemma readable_reader_world (w : world) (workers : value)
    (srcs : list (option string)) :
  Forall (fun f => is_Some (source_lines w f)) srcs ->
  Forall (fun f => is_Some (source_lines (reader_world w workers) f)) srcs.
Proof.
  intros H. eapply Forall_impl; [exact H|]. intros f Hf. simpl in *.
  destruct workers; try exact Hf; (destruct f as [fname|]; [exact Hf | simpl; eauto]).
Qed.

(** X22. With valid arguments and sources that can all be read, [main]
    ends its first part with a histogram that counts the tokens of all the
    sources as the process that reads them finds them: its total is their
    number, and the count of every key is the number of tokens that fold to
    it.  Without workers these are the tokens of the files and of standard
    input; with workers they are the tokens of the files alone, since
    standard input is empty in a worker. *)
Theorem main_counts_all_words (w : world) (oracle : list (nat * nat))
    (files : list string) (workers : value) :
  len (filter (fun f => f = "-") files) <= 1 ->
  valid_workers workers ->
  Forall (fun f => is_Some (source_lines w f)) (sources files) ->
  exists h,
    snd (main_final_result w oracle files workers) = Ok h /\
    total_words h = len (all_tokens (reader_world w workers) (sources files)) /\
    forall k, getitem_default (_words h) k =
              count_word k (all_tokens (reader_world w workers) (sources files)).
Proof.
  intros Hdash Hw Hread.
  apply (readable_reader_world w workers) in Hread.
  set (w' := reader_world w workers) in *.
  set (hs := (fun f => default __init__ (source_hist w' f)) <$> sources files).
  exists (foldl plus __init__ hs). split.
  - rewrite snd_main_final_result.
    destruct (Z.ltb_spec 1 (len (filter (fun f => f = "-") files))); [lia|].
    assert (Hsum : (results ← collect w' (sources files); sum_values results __init__)
                   = Ok (foldl plus __init__ hs)).
    { rewrite (collect_ok w' (sources files) (readable_hist w' _ Hread)).
      rewrite hist_value_fmap. exact (sum_values_histograms hs __init__). }
    destruct Hw as [-> | (n & -> & Hn)]; [exact Hsum|].
    destruct (Z.ltb_spec n 0); [lia | exact Hsum].
  - unfold hs. split.
    + destruct (foldl_plus_counts w' (sources files) EmptyString Hread __init__)
        as [_ ->]. unfold total_words. simpl. lia.
    + intros k.
      destruct (foldl_plus_counts w' (sources files) k Hread __init__) as [-> _].
      unfold getitem_default. simpl. rewrite lookup_empty. simpl. unfold _zero. lia.
Qed.

Lemma main_counts_all_words_witness :
  len (filter (fun f => f = "-") ["a.txt"; "-"; "b.txt"]) <= 1 /\
  valid_workers (VInt 0) /\
  Forall (fun f => is_Some (source_lines w_ex f)) (sources ["a.txt"; "-"; "b.txt"]) /\
  exists h,
    snd (main_final_result w_ex [(5, 1)]%nat ["a.txt"; "-"; "b.txt"] (VInt 0)) = Ok h /\
    total_words h =
      len (all_tokens (reader_world w_ex (VInt 0)) (sources ["a.txt"; "-"; "b.txt"])) /\
    forall k, getitem_default (_words h) k =
              count_word k (all_tokens (reader_world w_ex (VInt 0))
                                       (sources ["a.txt"; "-"; "b.txt"])).
Proof.
  assert (H1 : len (filter (fun f => f = "-") ["a.txt"; "-"; "b.txt"]) <= 1)
    by (vm_compute; discriminate).
  assert (H2 : valid_workers (VInt 0))
    by (right; exists 0; split; [reflexivity | lia]).
  assert (H3 : Forall (fun f => is_Some (source_lines w_ex f))
                      (sources ["a.txt"; "-"; "b.txt"]))
    by (repeat constructor; simpl; eauto).
  split; [exact H1|]. split; [exact H2|]. split; [exact H3|].
  exact (main_counts_all_words w_ex [(5, 1)]%nat _ (VInt 0) H1 H2 H3).
Defined.

(** *** The order of the files *)




(** *** The order of a dictionary's items *)

(** X24. [sorted] with the key of [top_words] returns the one list that
    holds the given entries and is in the order of the code (count
    descending, then word descending): the order in which the dictionary
    hands out its items has no effect on [top_words]. *)
Theorem sorted_reverse_unique (l l' : list item) :
  l ≡ₚ l' -> StronglySorted code_order l' -> sorted_reverse l = l'.
Proof.
  intros Hperm Hs. pose proof code_order_antisym as Hanti.
  apply (StronglySorted_unique code_order);
    [apply sorted_reverse_sorted | exact Hs|].
  now rewrite sorted_reverse_perm.
Qed.

Lemma sorted_reverse_unique_witness :
  [("a", 1); ("c", 2); ("b", 1)] ≡ₚ [("c", 2); ("b", 1); ("a", 1)] /\
  StronglySorted code_order [("c", 2); ("b", 1); ("a", 1)] /\
  sorted_reverse [("a", 1); ("c", 2); ("b", 1)] = [("c", 2); ("b", 1); ("a", 1)].
Proof.
  assert (Hp : [("a", 1); ("c", 2); ("b", 1)] ≡ₚ [("c", 2); ("b", 1); ("a", 1)]).
  { etransitivity; [apply perm_swap | apply perm_skip, perm_swap]. }
  assert (Hs : StronglySorted code_order [("c", 2); ("b", 1); ("a", 1)]).
  { repeat constructor; unfold code_order; simpl; (left; lia) || (right; split; reflexivity). }
  split; [exact Hp|]. split; [exact Hs | exact (sorted_reverse_unique _ _ Hp Hs)].
Defined.

(** X25. The merge loop of [__iadd__] gives the same dictionary in whatever
    order it visits the items of [other]. *)
Theorem merge_loop_order_irrelevant (a b : gmap string Z) (l : list (string * Z)) :
  l ≡ₚ map_to_list b ->
  foldl (fun d '(word, count) => iadd_item d word count) a l = iadd_words a b.
Proof.
  intros Hperm. apply map_eq. intros k.
  assert (Hnd : NoDup (l.*1)) by (rewrite Hperm; apply NoDup_fst_map_to_list).
  rewrite lookup_foldl_iadd by exact Hnd.
  rewrite (list_to_map_proper l (map_to_list b) Hnd Hperm).
  now rewrite list_to_map_to_list, lookup_iadd_words.
Qed.

Lemma merge_loop_order_irrelevant_witness :
  reverse (map_to_list (_words words_spam)) ≡ₚ map_to_list (_words words_spam) /\
  foldl (fun d '(word, count) => iadd_item d word count) (_words words_tie)
        (reverse (map_to_list (_words words_spam))) =
  iadd_words (_words words_tie) (_words words_spam).
Proof.
  assert (H : reverse (map_to_list (_words words_spam)) ≡ₚ
              map_to_list (_words words_spam)) by apply reverse_Permutation.
  split; [exact H | exact (merge_loop_order_irrelevant _ _ _ H)].
Defined.

(** *** The pool and the serial loop on files *)





End EndToEnd.
